(** * Resume builder: suggestion engine, checklist evaluator, list updates
      and JSON export of [resume-builder/components/ResumeBuilder.tsx].

    The component is modelled as pure functions over the document it holds.
    JavaScript strings are sequences of UTF-16 code units; a code unit is a
    natural number [N].  Built-in operations of the language
    ([String.prototype.trim], [RegExp.prototype.test], [Set], [Array]
    methods, [JSON.stringify]) are written out for the fragment the
    component uses. *)

From Stdlib Require Import List NArith ZArith Bool Arith Lia.
From Stdlib Require Ascii String.
Import ListNotations.
Import String.StringSyntax.

Set Implicit Arguments.

(* ================================================================== *)
(** ** JavaScript strings *)
(* ================================================================== *)

Module JS.

(** A string value: the list of its UTF-16 code units. *)
Definition jsstring := list N.

(** Source literals are plain ASCII; [lit] turns one into code units. *)
Definition lit (s : String.string) : jsstring :=
  map Ascii.N_of_ascii (String.list_ascii_of_string s).

Arguments lit s%_string_scope.

Fixpoint streqb (a b : jsstring) : bool :=
  match a, b with
  | [], [] => true
  | x :: a', y :: b' => N.eqb x y && streqb a' b'
  | _, _ => false
  end.

(** WhiteSpace and LineTerminator code points, the set stripped by
    [trim] and matched by the regular-expression class [\s]. *)
Definition isWhiteSpace (c : N) : bool :=
  (N.eqb c 9 || N.eqb c 10 || N.eqb c 11 || N.eqb c 12 || N.eqb c 13
   || N.eqb c 32 || N.eqb c 160 || N.eqb c 5760
   || (N.leb 8192 c && N.leb c 8202)
   || N.eqb c 8232 || N.eqb c 8233 || N.eqb c 8239 || N.eqb c 8287
   || N.eqb c 12288 || N.eqb c 65279)%bool.

Fixpoint trimStart (s : jsstring) : jsstring :=
  match s with
  | c :: s' => if isWhiteSpace c then trimStart s' else s
  | [] => []
  end.

Definition trimEnd (s : jsstring) : jsstring :=
  rev (trimStart (rev s)).

(** [s.trim()] *)
Definition trim (s : jsstring) : jsstring := trimEnd (trimStart s).

(** [s.split("\n")]: always at least one piece. *)
Fixpoint split_lines (s : jsstring) : list jsstring :=
  match s with
  | [] => [[]]
  | c :: s' =>
      if N.eqb c 10 then [] :: split_lines s'
      else match split_lines s' with
           | l :: ls => (c :: l) :: ls
           | [] => [[c]]
           end
  end.

(** [a.includes(x)] on an array of strings. *)
Definition includes (a : list jsstring) (x : jsstring) : bool :=
  existsb (streqb x) a.

(** [a.slice(0, n)] *)
Definition slice0 (n : nat) (a : list jsstring) : list jsstring :=
  firstn n a.

(** *** [Set] of strings: insertion-ordered, no repeated member. *)
Definition Set_add (st : list jsstring) (x : jsstring) : list jsstring :=
  if includes st x then st else st ++ [x].

(** [new Set(iterable)] followed by spreading it back into an array. *)
Definition Set_of (l : list jsstring) : list jsstring :=
  fold_left Set_add l [].

(** *** Regular expressions, for the shapes the library uses.

    Every pattern of the library is an alternation of sequences whose
    atoms are a literal character or [\s*], with the [i] flag and
    without the [g], [y] or [u] flags, so [test] keeps no state. *)
Inductive atom : Type :=
| Chr (c : N)
| WsStar.

Definition regexp := list (list atom).

(** Case folding of the [i] flag.  The pattern characters are ASCII
    letters and the space; a code unit above 127 never folds onto an
    ASCII one, so folding ASCII lower case to upper case decides the
    comparison against them. *)
Definition canonicalize (c : N) : N :=
  if (N.leb 97 c && N.leb c 122)%bool then (c - 32)%N else c.

Definition chr_matches (p x : N) : bool :=
  N.eqb (canonicalize p) (canonicalize x).

(** Does the sequence match a prefix of the input? *)
Fixpoint matches_here (p : list atom) : jsstring -> bool :=
  match p with
  | [] => fun _ => true
  | Chr c :: p' =>
      fun s => match s with
               | x :: s' => chr_matches c x && matches_here p' s'
               | [] => false
               end
  | WsStar :: p' =>
      fix skip (s : jsstring) : bool :=
        matches_here p' s
        || match s with
           | x :: s' => isWhiteSpace x && skip s'
           | [] => false
           end
  end.

Definition alt_here (r : regexp) (s : jsstring) : bool :=
  existsb (fun p => matches_here p s) r.

(** [r.test(s)]: a match may start at any index, the end included. *)
Fixpoint test (r : regexp) (s : jsstring) : bool :=
  alt_here r s
  || match s with
     | _ :: s' => test r s'
     | [] => false
     end.

Definition word (s : String.string) : list atom := map Chr (lit s).

Arguments word s%_string_scope.

End JS.

Import JS.

(* ================================================================== *)
(** ** Data model *)
(* ================================================================== *)

Record PersonalInfo : Type := mkPersonalInfo {
  fullName : jsstring;
  headline : jsstring;
  email : jsstring;
  phone : jsstring;
  p_location : jsstring;
  website : jsstring;
  linkedin : jsstring;
  summary : jsstring
}.

Record Experience : Type := mkExperience {
  x_id : jsstring;
  role : jsstring;
  company : jsstring;
  x_location : jsstring;
  x_startDate : jsstring;
  x_endDate : jsstring;
  bullets : list jsstring
}.

Record Education : Type := mkEducation {
  e_id : jsstring;
  school : jsstring;
  degree : jsstring;
  e_startDate : jsstring;
  e_endDate : jsstring;
  details : jsstring;
  e_location : jsstring
}.

Record Project : Type := mkProject {
  j_id : jsstring;
  name : jsstring;
  description : jsstring;
  link : jsstring;
  highlights : list jsstring
}.

Record SkillBlock : Type := mkSkillBlock {
  s_id : jsstring;
  label : jsstring;
  items : jsstring
}.

Record ChecklistItem : Type := mkChecklistItem {
  c_id : jsstring;
  c_label : jsstring;
  required : bool;
  satisfied : bool;
  tips : list jsstring
}.

(** The five pieces of state held by [ResumeBuilder]. *)
Record ResumeDocument : Type := mkResumeDocument {
  personal : PersonalInfo;
  experiences : list Experience;
  educations : list Education;
  projects : list Project;
  skills : list SkillBlock
}.

Definition basePersonalInfo : PersonalInfo :=
  mkPersonalInfo [] [] [] [] [] [] [] [].

(* ================================================================== *)
(** ** Suggestion engine *)
(* ================================================================== *)

Record LibraryEntry : Type := mkEntry {
  pattern : regexp;
  entry_bullets : list jsstring
}.

Definition softwareBullets : list jsstring :=
  [ lit "Designed and shipped responsive interfaces with React, TypeScript, and modern CSS tooling.";
    lit "Collaborated with cross-functional partners to ship features that unblocked revenue-critical workflows.";
    lit "Instrumented analytics and alerting that reduced production issues and improved deployment confidence." ].

Definition productBullets : list jsstring :=
  [ lit "Defined product strategy by synthesizing user research, analytics, and stakeholder interviews.";
    lit "Launched iterative experiments that increased activation and retention across the customer lifecycle.";
    lit "Prioritized developer time through a discovery-to-delivery framework grounded in measurable outcomes." ].

Definition designBullets : list jsstring :=
  [ lit "Crafted accessible design systems with documented patterns and component libraries.";
    lit "Conducted moderated usability sessions that surfaced critical workflow friction.";
    lit "Partnered with engineers to validate interaction fidelity and deliver pixel-perfect implementations." ].

Definition dataBullets : list jsstring :=
  [ lit "Delivered end-to-end data products leveraging Python, SQL, and BI tooling to answer high-impact questions.";
    lit "Built predictive models that increased operational efficiency and informed strategic decisions.";
    lit "Implemented automated data quality monitors that strengthened trust in dashboards and reports." ].

Definition roleSuggestionLibrary : list LibraryEntry :=
  [ mkEntry
      [ word "software"; word "full" ++ [WsStar] ++ word "stack";
        word "backend"; word "frontend"; word "web"; word "developer";
        word "engineer" ]
      softwareBullets;
    mkEntry
      [ word "product" ++ [WsStar] ++ word "manager"; word "pm";
        word "product lead" ]
      productBullets;
    mkEntry
      [ word "designer"; word "ux"; word "ui" ]
      designBullets;
    mkEntry
      [ word "data"; word "analytics"; word "science" ]
      dataBullets ].

Definition genericBullets : list jsstring :=
  [ lit "Partnered with stakeholders to prioritize initiatives by impact and effort.";
    lit "Applied measurable goals to track success and iterate quickly on feedback.";
    lit "Mentored teammates and strengthened team operating rituals to raise the quality bar." ].

Definition entry_matches (role0 summary0 : jsstring) (entry : LibraryEntry)
  : bool :=
  test (pattern entry) role0 || test (pattern entry) summary0.

Definition libraryMatches (role0 summary0 : jsstring) : list jsstring :=
  flat_map entry_bullets
    (filter (entry_matches role0 summary0) roleSuggestionLibrary).

Definition getSuggestedBullets (role0 summary0 : jsstring) : list jsstring :=
  Set_of (libraryMatches role0 summary0 ++ genericBullets).

(** De-duplication as the specification words it: read the sequence from
    the left and keep an element the first time it shows up. *)
Fixpoint keep_first (l : list jsstring) : list jsstring :=
  match l with
  | [] => []
  | x :: l' => x :: filter (fun y => negb (streqb y x)) (keep_first l')
  end.

(* ================================================================== *)
(** ** Checklist evaluator *)
(* ================================================================== *)

(** [s.trim().length > 0] *)
Definition nonblank (s : jsstring) : bool :=
  0 <? length (trim s).

(** The [checklist] memo of [ResumeBuilder]; it reads [personal],
    [experiences], [educations] and [skills]. *)
Definition checklist (d : ResumeDocument) : list ChecklistItem :=
  [ mkChecklistItem
      (lit "contact")
      (lit "Contact section is complete")
      true
      (nonblank (fullName (personal d))
       && nonblank (headline (personal d))
       && nonblank (email (personal d))
       && nonblank (p_location (personal d)))
      [ lit "Include full name, role headline, and location.";
        lit "Add best contact email and optional phone number." ];
    mkChecklistItem
      (lit "summary")
      (lit "Include a focused summary")
      false
      (60 <? length (trim (summary (personal d))))
      [ lit "Write 2" ++ [8211%N]
          ++ lit "3 concise sentences highlighting domain expertise.";
        lit "Reference years of experience and a core differentiator." ];
    mkChecklistItem
      (lit "experience")
      (lit "At least one experience entry has impact bullets")
      true
      (existsb (fun exp => 3 <=? length (bullets exp)) (experiences d))
      [ lit "Aim for 3+ quantified bullets per recent role.";
        lit "Start each bullet with strong action verbs." ];
    mkChecklistItem
      (lit "education")
      (lit "Education contains degree or certification")
      false
      (existsb (fun edu => nonblank (degree edu) || nonblank (details edu))
         (educations d))
      [ lit "List degree, major, and graduation year.";
        lit "Add standout coursework, honors, or certifications." ];
    mkChecklistItem
      (lit "skills")
      (lit "Skill blocks highlight tools and strengths")
      true
      (existsb (fun block => nonblank (items block)) (skills d))
      [ lit "Group skills by tooling, methodologies, and domains.";
        lit "Mirror keywords used in your target job descriptions." ] ].

(** What [ChecklistPanel] derives from the list it is given. *)
Module ChecklistPanel.

Definition complete (cl : list ChecklistItem) : bool :=
  forallb satisfied cl.

Definition completedCount (cl : list ChecklistItem) : nat :=
  length (filter satisfied cl).

(** [checklist.length], the denominator shown next to the count. *)
Definition total (cl : list ChecklistItem) : nat := length cl.

End ChecklistPanel.

(* ================================================================== *)
(** ** Factories and updates keyed by identifier *)
(* ================================================================== *)

(** [generateId] draws from a random source, so the fresh identifier is
    an argument of every factory. *)
Definition createExperience (id : jsstring) : Experience :=
  mkExperience id [] [] [] [] [] [].

Definition createEducation (id : jsstring) : Education :=
  mkEducation id [] [] [] [] [] [].

Definition createProject (id : jsstring) : Project :=
  mkProject id [] [] [] [].

Definition createSkillBlock (id : jsstring) : SkillBlock :=
  mkSkillBlock id [] [].

(** [Partial<T>]: every property of [T], each one optional. *)
Record PartialExperience : Type := mkPartialExperience {
  ux_id : option jsstring;
  ux_role : option jsstring;
  ux_company : option jsstring;
  ux_location : option jsstring;
  ux_startDate : option jsstring;
  ux_endDate : option jsstring;
  ux_bullets : option (list jsstring)
}.

Record PartialEducation : Type := mkPartialEducation {
  ue_id : option jsstring;
  ue_school : option jsstring;
  ue_degree : option jsstring;
  ue_startDate : option jsstring;
  ue_endDate : option jsstring;
  ue_details : option jsstring;
  ue_location : option jsstring
}.

Record PartialProject : Type := mkPartialProject {
  uj_id : option jsstring;
  uj_name : option jsstring;
  uj_description : option jsstring;
  uj_link : option jsstring;
  uj_highlights : option (list jsstring)
}.

Record PartialSkillBlock : Type := mkPartialSkillBlock {
  us_id : option jsstring;
  us_label : option jsstring;
  us_items : option jsstring
}.

(** One property of [{ ...old, ...updates }]. *)
Definition over (A : Type) (old : A) (upd : option A) : A :=
  match upd with
  | Some v => v
  | None => old
  end.

(** Records that carry an identifier and accept a partial update, so
    that the four [handle...Change] functions share one shape. *)
Class Keyed (R U : Type) : Type := {
  ident : R -> jsstring;
  spread : R -> U -> R
}.

#[export] Instance Keyed_Experience : Keyed Experience PartialExperience := {
  ident := x_id;
  spread := fun exp u =>
    mkExperience
      (over (x_id exp) (ux_id u))
      (over (role exp) (ux_role u))
      (over (company exp) (ux_company u))
      (over (x_location exp) (ux_location u))
      (over (x_startDate exp) (ux_startDate u))
      (over (x_endDate exp) (ux_endDate u))
      (over (bullets exp) (ux_bullets u))
}.

#[export] Instance Keyed_Education : Keyed Education PartialEducation := {
  ident := e_id;
  spread := fun edu u =>
    mkEducation
      (over (e_id edu) (ue_id u))
      (over (school edu) (ue_school u))
      (over (degree edu) (ue_degree u))
      (over (e_startDate edu) (ue_startDate u))
      (over (e_endDate edu) (ue_endDate u))
      (over (details edu) (ue_details u))
      (over (e_location edu) (ue_location u))
}.

#[export] Instance Keyed_Project : Keyed Project PartialProject := {
  ident := j_id;
  spread := fun project u =>
    mkProject
      (over (j_id project) (uj_id u))
      (over (name project) (uj_name u))
      (over (description project) (uj_description u))
      (over (link project) (uj_link u))
      (over (highlights project) (uj_highlights u))
}.

#[export] Instance Keyed_SkillBlock : Keyed SkillBlock PartialSkillBlock := {
  ident := s_id;
  spread := fun block u =>
    mkSkillBlock
      (over (s_id block) (us_id u))
      (over (label block) (us_label u))
      (over (items block) (us_items u))
}.

(** [prev.map((r) => (r.id === id ? { ...r, ...updates } : r))] *)
Definition handleChange {R U : Type} `{Keyed R U}
  (id : jsstring) (updates : U) (prev : list R) : list R :=
  map (fun r => if streqb (ident r) id then spread r updates else r) prev.

Definition handleExperienceChange
  : jsstring -> PartialExperience -> list Experience -> list Experience :=
  handleChange.

Definition handleEducationChange
  : jsstring -> PartialEducation -> list Education -> list Education :=
  handleChange.

Definition handleProjectChange
  : jsstring -> PartialProject -> list Project -> list Project :=
  handleChange.

Definition handleSkillChange
  : jsstring -> PartialSkillBlock -> list SkillBlock -> list SkillBlock :=
  handleChange.

(** [prev.filter((item) => item.id !== id)] *)
Definition removeById {R U : Type} `{Keyed R U}
  (id : jsstring) (prev : list R) : list R :=
  filter (fun item => negb (streqb (ident item) id)) prev.

(* ================================================================== *)
(** ** The editing form: one event per control of the left column *)
(* ================================================================== *)

Inductive PersonalField : Type :=
| FullName | Headline | Summary | Email | Phone | Location | Website
| LinkedIn.

(** [setPersonal((prev) => ({ ...prev, field: value }))] *)
Definition setPersonal (f : PersonalField) (value : jsstring)
  (prev : PersonalInfo) : PersonalInfo :=
  match f with
  | FullName =>
      mkPersonalInfo value (headline prev) (email prev) (phone prev)
        (p_location prev) (website prev) (linkedin prev) (summary prev)
  | Headline =>
      mkPersonalInfo (fullName prev) value (email prev) (phone prev)
        (p_location prev) (website prev) (linkedin prev) (summary prev)
  | Email =>
      mkPersonalInfo (fullName prev) (headline prev) value (phone prev)
        (p_location prev) (website prev) (linkedin prev) (summary prev)
  | Phone =>
      mkPersonalInfo (fullName prev) (headline prev) (email prev) value
        (p_location prev) (website prev) (linkedin prev) (summary prev)
  | Location =>
      mkPersonalInfo (fullName prev) (headline prev) (email prev)
        (phone prev) value (website prev) (linkedin prev) (summary prev)
  | Website =>
      mkPersonalInfo (fullName prev) (headline prev) (email prev)
        (phone prev) (p_location prev) value (linkedin prev) (summary prev)
  | LinkedIn =>
      mkPersonalInfo (fullName prev) (headline prev) (email prev)
        (phone prev) (p_location prev) (website prev) value (summary prev)
  | Summary =>
      mkPersonalInfo (fullName prev) (headline prev) (email prev)
        (phone prev) (p_location prev) (website prev) (linkedin prev) value
  end.

Definition noExperienceUpdates : PartialExperience :=
  mkPartialExperience None None None None None None None.

Definition noEducationUpdates : PartialEducation :=
  mkPartialEducation None None None None None None None.

Definition noProjectUpdates : PartialProject :=
  mkPartialProject None None None None None.

Definition noSkillUpdates : PartialSkillBlock :=
  mkPartialSkillBlock None None None.

Inductive ExperienceField : Type :=
| Role | Company | RoleLocation | RoleStart | RoleEnd.

(** The object literal each text input of a role passes as [updates]. *)
Definition experienceInput (f : ExperienceField) (value : jsstring)
  : PartialExperience :=
  match f with
  | Role => mkPartialExperience None (Some value) None None None None None
  | Company => mkPartialExperience None None (Some value) None None None None
  | RoleLocation =>
      mkPartialExperience None None None (Some value) None None None
  | RoleStart => mkPartialExperience None None None None (Some value) None None
  | RoleEnd => mkPartialExperience None None None None None (Some value) None
  end.

Definition bulletsUpdate (bs : list jsstring) : PartialExperience :=
  mkPartialExperience None None None None None None (Some bs).

(** The bullets text area: split on line feeds, trim every line, keep the
    lines that are not empty. *)
Definition bulletsOfText (value : jsstring) : list jsstring :=
  filter (fun line => 0 <? length line) (map trim (split_lines value)).

(** The suggestions computed while a role is rendered. *)
Definition suggestions (p : PersonalInfo) (exp : Experience)
  : list jsstring :=
  filter (fun bullet => negb (includes (bullets exp) bullet))
    (getSuggestedBullets (role exp ++ [32%N] ++ company exp) (summary p)).

Inductive EducationField : Type :=
| School | Degree | Details | EduStart | EduEnd | EduLocation.

Definition educationInput (f : EducationField) (value : jsstring)
  : PartialEducation :=
  match f with
  | School => mkPartialEducation None (Some value) None None None None None
  | Degree => mkPartialEducation None None (Some value) None None None None
  | EduStart => mkPartialEducation None None None (Some value) None None None
  | EduEnd => mkPartialEducation None None None None (Some value) None None
  | Details => mkPartialEducation None None None None None (Some value) None
  | EduLocation =>
      mkPartialEducation None None None None None None (Some value)
  end.

Inductive ProjectField : Type :=
| ProjectName | Description | Link.

Definition projectInput (f : ProjectField) (value : jsstring)
  : PartialProject :=
  match f with
  | ProjectName => mkPartialProject None (Some value) None None None
  | Description => mkPartialProject None None (Some value) None None
  | Link => mkPartialProject None None None (Some value) None
  end.

(** The highlights text area filters with [Boolean]: a string is truthy
    when it is not empty. *)
Definition highlightsOfText (value : jsstring) : list jsstring :=
  filter (fun line => match line with [] => false | _ => true end)
    (map trim (split_lines value)).

Inductive SkillField : Type :=
| BlockLabel | BlockItems.

Definition skillInput (f : SkillField) (value : jsstring)
  : PartialSkillBlock :=
  match f with
  | BlockLabel => mkPartialSkillBlock None (Some value) None
  | BlockItems => mkPartialSkillBlock None None (Some value)
  end.

Definition with_personal (d : ResumeDocument) (p : PersonalInfo) :=
  mkResumeDocument p (experiences d) (educations d) (projects d) (skills d).

Definition with_experiences (d : ResumeDocument) (xs : list Experience) :=
  mkResumeDocument (personal d) xs (educations d) (projects d) (skills d).

Definition with_educations (d : ResumeDocument) (es : list Education) :=
  mkResumeDocument (personal d) (experiences d) es (projects d) (skills d).

Definition with_projects (d : ResumeDocument) (ps : list Project) :=
  mkResumeDocument (personal d) (experiences d) (educations d) ps (skills d).

Definition with_skills (d : ResumeDocument) (ss : list SkillBlock) :=
  mkResumeDocument (personal d) (experiences d) (educations d) (projects d)
    ss.

(** A control belongs to the [i]-th rendered record of its list; fresh
    identifiers come with the event because [generateId] is random. *)
Inductive Event : Type :=
| EditPersonal (f : PersonalField) (value : jsstring)
| AddRole (id : jsstring)
| EditExperience (i : nat) (f : ExperienceField) (value : jsstring)
| EditBullets (i : nat) (value : jsstring)
| AcceptSuggestion (i k : nat)
| RemoveRole (i : nat)
| AddProject (id : jsstring)
| EditProject (i : nat) (f : ProjectField) (value : jsstring)
| EditHighlights (i : nat) (value : jsstring)
| RemoveProject (i : nat)
| AddEducation (id : jsstring)
| EditEducation (i : nat) (f : EducationField) (value : jsstring)
| RemoveEducation (i : nat)
| AddBlock (id : jsstring)
| EditSkill (i : nat) (f : SkillField) (value : jsstring)
| RemoveBlock (i : nat).

(** [Some x] applied to the handler when the control exists. *)
Definition on {A B : Type} (o : option A) (k : A -> option B) : option B :=
  match o with
  | Some a => k a
  | None => None
  end.

(** The remove button is rendered only when the list has more than one
    record. *)
Definition removable {A : Type} (l : list A) : bool := 1 <? length l.

(** The document after the handler of an event has run; [None] when the
    control the event belongs to is not on the page. *)
Definition step (d : ResumeDocument) (ev : Event) : option ResumeDocument :=
  match ev with
  | EditPersonal f value =>
      Some (with_personal d (setPersonal f value (personal d)))
  | AddRole id =>
      Some (with_experiences d (experiences d ++ [createExperience id]))
  | EditExperience i f value =>
      on (nth_error (experiences d) i) (fun exp =>
        Some (with_experiences d
                (handleExperienceChange (x_id exp) (experienceInput f value)
                   (experiences d))))
  | EditBullets i value =>
      on (nth_error (experiences d) i) (fun exp =>
        Some (with_experiences d
                (handleExperienceChange (x_id exp)
                   (bulletsUpdate (bulletsOfText value)) (experiences d))))
  | AcceptSuggestion i k =>
      on (nth_error (experiences d) i) (fun exp =>
        on (nth_error (slice0 4 (suggestions (personal d) exp)) k)
          (fun suggestion =>
             Some (with_experiences d
                     (handleExperienceChange (x_id exp)
                        (bulletsUpdate (bullets exp ++ [suggestion]))
                        (experiences d)))))
  | RemoveRole i =>
      on (nth_error (experiences d) i) (fun exp =>
        if removable (experiences d)
        then Some (with_experiences d (removeById (x_id exp) (experiences d)))
        else None)
  | AddProject id =>
      Some (with_projects d (projects d ++ [createProject id]))
  | EditProject i f value =>
      on (nth_error (projects d) i) (fun project =>
        Some (with_projects d
                (handleProjectChange (j_id project) (projectInput f value)
                   (projects d))))
  | EditHighlights i value =>
      on (nth_error (projects d) i) (fun project =>
        Some (with_projects d
                (handleProjectChange (j_id project)
                   (mkPartialProject None None None None
                      (Some (highlightsOfText value)))
                   (projects d))))
  | RemoveProject i =>
      on (nth_error (projects d) i) (fun project =>
        if removable (projects d)
        then Some (with_projects d (removeById (j_id project) (projects d)))
        else None)
  | AddEducation id =>
      Some (with_educations d (educations d ++ [createEducation id]))
  | EditEducation i f value =>
      on (nth_error (educations d) i) (fun edu =>
        Some (with_educations d
                (handleEducationChange (e_id edu) (educationInput f value)
                   (educations d))))
  | RemoveEducation i =>
      on (nth_error (educations d) i) (fun edu =>
        if removable (educations d)
        then Some (with_educations d (removeById (e_id edu) (educations d)))
        else None)
  | AddBlock id =>
      Some (with_skills d (skills d ++ [createSkillBlock id]))
  | EditSkill i f value =>
      on (nth_error (skills d) i) (fun block =>
        Some (with_skills d
                (handleSkillChange (s_id block) (skillInput f value)
                   (skills d))))
  | RemoveBlock i =>
      on (nth_error (skills d) i) (fun block =>
        if removable (skills d)
        then Some (with_skills d (removeById (s_id block) (skills d)))
        else None)
  end.

(** The state [ResumeBuilder] starts from: one empty record per list, the
    skill block labelled "Core". *)
Definition initialDocument (i1 i2 i3 i4 : jsstring) : ResumeDocument :=
  mkResumeDocument basePersonalInfo
    [createExperience i1] [createEducation i2] [createProject i3]
    [mkSkillBlock i4 (lit "Core") []].

(** Documents the form can arrive at. *)
Inductive reachable : ResumeDocument -> Prop :=
| reachable_initial (i1 i2 i3 i4 : jsstring) :
    reachable (initialDocument i1 i2 i3 i4)
| reachable_step (d d' : ResumeDocument) (ev : Event) :
    reachable d -> step d ev = Some d' -> reachable d'.

(** A bullet as the claim wants it stored: nothing to trim, not empty. *)
Definition tidy (b : jsstring) : Prop := trim b = b /\ b <> [].

Definition bullets_tidy (d : ResumeDocument) : Prop :=
  Forall (fun exp => Forall tidy (bullets exp)) (experiences d).

(* ================================================================== *)
(** ** JSON text: [JSON.stringify(value, null, 2)] and [JSON.parse] *)
(* ================================================================== *)

Notation "'let?' x := e 'in' k" := (on e (fun x => k))
  (at level 10, x pattern, e at level 100, k at level 200).

Module JSON.

Local Open Scope N_scope.

#[local] Unset Elimination Schemes.

(** The values an exported document is made of: strings, arrays and
    objects whose property names are not array indices, so that
    properties are enumerated in creation order. *)
Inductive value : Type :=
| Str (s : jsstring)
| Arr (elements : list value)
| Obj (properties : list (jsstring * value)).

#[local] Set Elimination Schemes.

(** *** Serialisation *)

Definition hexdigit (n : N) : N :=
  if n <? 10 then 48 + n else 87 + n.

(** A backslash, [u] and four lower-case hexadecimal digits. *)
Definition UnicodeEscape (c : N) : jsstring :=
  [92; 117; hexdigit ((c / 4096) mod 16); hexdigit ((c / 256) mod 16);
   hexdigit ((c / 16) mod 16); hexdigit (c mod 16)].

Definition isLeadingSurrogate (c : N) : bool :=
  (55296 <=? c) && (c <=? 56319).

Definition isTrailingSurrogate (c : N) : bool :=
  (56320 <=? c) && (c <=? 57343).

(** The body of [QuoteJSONString]: the string is read code point by
    code point, a surrogate pair is copied, a lone surrogate and a
    control character are escaped. *)
Fixpoint quote_units (s : jsstring) : jsstring :=
  match s with
  | [] => []
  | c :: s' =>
      if c =? 8 then [92; 98] ++ quote_units s'
      else if c =? 9 then [92; 116] ++ quote_units s'
      else if c =? 10 then [92; 110] ++ quote_units s'
      else if c =? 12 then [92; 102] ++ quote_units s'
      else if c =? 13 then [92; 114] ++ quote_units s'
      else if c =? 34 then [92; 34] ++ quote_units s'
      else if c =? 92 then [92; 92] ++ quote_units s'
      else if c <? 32 then UnicodeEscape c ++ quote_units s'
      else if isLeadingSurrogate c then
        match s' with
        | c2 :: s'' =>
            if isTrailingSurrogate c2 then c :: c2 :: quote_units s''
            else UnicodeEscape c ++ quote_units s'
        | [] => UnicodeEscape c
        end
      else if isTrailingSurrogate c then UnicodeEscape c ++ quote_units s'
      else c :: quote_units s'
  end.

Definition QuoteJSONString (s : jsstring) : jsstring :=
  [34] ++ quote_units s ++ [34].

(** The third argument [2] of [JSON.stringify]: a gap of two spaces. *)
Definition gap : jsstring := [32; 32].

Fixpoint join (sep : jsstring) (parts : list jsstring) : jsstring :=
  match parts with
  | [] => []
  | [x] => x
  | x :: rest => x ++ sep ++ join sep rest
  end.

(** Between two elements or properties: a comma, a line feed and the
    indentation. *)
Definition separator (indent : jsstring) : jsstring := [44; 10] ++ indent.

(** The common end of [SerializeJSONObject] and [SerializeJSONArray]
    when the gap is not empty. *)
Definition enclose (opening closing : N) (stepback indent : jsstring)
  (partial : list jsstring) : jsstring :=
  match partial with
  | [] => [opening; closing]
  | _ =>
      [opening; 10] ++ indent ++ join (separator indent) partial
      ++ [10] ++ stepback ++ [closing]
  end.

Fixpoint SerializeJSONProperty (indent : jsstring) (v : value)
  : jsstring :=
  match v with
  | Str s => QuoteJSONString s
  | Arr elements =>
      enclose 91 93 indent (indent ++ gap)
        (map (SerializeJSONProperty (indent ++ gap)) elements)
  | Obj properties =>
      enclose 123 125 indent (indent ++ gap)
        (map (fun kv =>
                QuoteJSONString (fst kv) ++ [58; 32]
                ++ SerializeJSONProperty (indent ++ gap) (snd kv))
           properties)
  end.

(** [JSON.stringify(v, null, 2)] *)
Definition stringify (v : value) : jsstring :=
  SerializeJSONProperty [] v.

(** *** Parsing

    [JSON.parse] on the part of the JSON grammar that exported texts use:
    strings, arrays and objects.  A number or one of the literals [true],
    [false] and [null], which no exported text holds, is answered with
    [None], as a syntax error is. *)

Definition isJSONWhiteSpace (c : N) : bool :=
  (c =? 9) || (c =? 10) || (c =? 13) || (c =? 32).

Fixpoint skip_ws (s : jsstring) : jsstring :=
  match s with
  | c :: s' => if isJSONWhiteSpace c then skip_ws s' else s
  | [] => []
  end.

Definition hexval (c : N) : option N :=
  if (48 <=? c) && (c <=? 57) then Some (c - 48)
  else if (97 <=? c) && (c <=? 102) then Some (c - 87)
  else if (65 <=? c) && (c <=? 70) then Some (c - 55)
  else None.

Definition hex4 (a b c d : N) : option N :=
  let? x := hexval a in
  let? y := hexval b in
  let? z := hexval c in
  let? w := hexval d in
  Some (((x * 16 + y) * 16 + z) * 16 + w).

Definition prepend (c : N) (r : option (jsstring * jsstring))
  : option (jsstring * jsstring) :=
  let? (str, rest) := r in Some (c :: str, rest).

(** The characters of a string literal after its opening quote; the
    result is the string value and the text after the closing quote. *)
Fixpoint parse_chars (s : jsstring) : option (jsstring * jsstring) :=
  match s with
  | [] => None
  | c :: r =>
      if c =? 34 then Some ([], r)
      else if c =? 92 then
        match r with
        | [] => None
        | e :: r1 =>
            if e =? 34 then prepend 34 (parse_chars r1)
            else if e =? 47 then prepend 47 (parse_chars r1)
            else if e =? 92 then prepend 92 (parse_chars r1)
            else if e =? 98 then prepend 8 (parse_chars r1)
            else if e =? 102 then prepend 12 (parse_chars r1)
            else if e =? 110 then prepend 10 (parse_chars r1)
            else if e =? 114 then prepend 13 (parse_chars r1)
            else if e =? 116 then prepend 9 (parse_chars r1)
            else if e =? 117 then
              match r1 with
              | h1 :: h2 :: h3 :: h4 :: r2 =>
                  let? u := hex4 h1 h2 h3 h4 in
                  prepend u (parse_chars r2)
              | _ => None
              end
            else None
        end
      else if c <? 32 then None
      else prepend c (parse_chars r)
  end.

(** [CreateDataProperty]: a repeated name keeps its first position and
    takes the last value. *)
Fixpoint define (o : list (jsstring * value)) (k : jsstring) (v : value)
  : list (jsstring * value) :=
  match o with
  | [] => [(k, v)]
  | (k', v') :: o' =>
      if streqb k' k then (k', v) :: o' else (k', v') :: define o' k v
  end.

Definition properties_of (members : list (jsstring * value))
  : list (jsstring * value) :=
  fold_left (fun o kv => define o (fst kv) (snd kv)) members [].

(** Recursive descent; every call spends one unit of [fuel]. *)
Fixpoint parse_value (fuel : nat) (s : jsstring)
  : option (value * jsstring) :=
  match fuel with
  | O => None
  | S fuel' =>
      match skip_ws s with
      | [] => None
      | c :: r =>
          if c =? 34 then
            let? (str, r1) := parse_chars r in Some (Str str, r1)
          else if c =? 91 then
            match skip_ws r with
            | [] => None
            | c1 :: r1 =>
                if c1 =? 93 then Some (Arr [], r1)
                else
                  let? (vs, r2) := parse_elements fuel' r in
                  Some (Arr vs, r2)
            end
          else if c =? 123 then
            match skip_ws r with
            | [] => None
            | c1 :: r1 =>
                if c1 =? 125 then Some (Obj [], r1)
                else
                  let? (ms, r2) := parse_members fuel' r in
                  Some (Obj (properties_of ms), r2)
            end
          else None
      end
  end

with parse_elements (fuel : nat) (s : jsstring)
  : option (list value * jsstring) :=
  match fuel with
  | O => None
  | S fuel' =>
      let? (v, r) := parse_value fuel' s in
      match skip_ws r with
      | [] => None
      | c :: r1 =>
          if c =? 44 then
            let? (vs, r2) := parse_elements fuel' r1 in Some (v :: vs, r2)
          else if c =? 93 then Some ([v], r1)
          else None
      end
  end

with parse_members (fuel : nat) (s : jsstring)
  : option (list (jsstring * value) * jsstring) :=
  match fuel with
  | O => None
  | S fuel' =>
      match skip_ws s with
      | [] => None
      | c :: r =>
          if c =? 34 then
            let? (k, r1) := parse_chars r in
            match skip_ws r1 with
            | [] => None
            | c1 :: r2 =>
                if c1 =? 58 then
                  let? (v, r3) := parse_value fuel' r2 in
                  match skip_ws r3 with
                  | [] => None
                  | c3 :: r4 =>
                      if c3 =? 44 then
                        let? (ms, r5) := parse_members fuel' r4 in
                        Some ((k, v) :: ms, r5)
                      else if c3 =? 125 then Some ([(k, v)], r4)
                      else None
                  end
                else None
            end
          else None
      end
  end.

(** [JSON.parse(text)]: one value, then nothing but white space.  The
    length of the text bounds the depth of the descent. *)
Definition parse (text : jsstring) : option value :=
  let? (v, r) := parse_value (S (length text)) text in
  match skip_ws r with
  | [] => Some v
  | _ => None
  end.

(** Text made of JSON white space only, such as the line break and the
    indentation put between tokens. *)
Definition blank (ws : jsstring) : Prop :=
  Forall (fun c => isJSONWhiteSpace c = true) ws.

(** A code unit that opens a value: quote, bracket or brace. *)
Definition opener (c : N) : Prop := c = 34 \/ c = 91 \/ c = 123.

(** The text of one property: quoted name, colon, space, value. *)
Definition member_text (indent : jsstring) (kv : jsstring * value)
  : jsstring :=
  QuoteJSONString (fst kv) ++ [58; 32]
  ++ SerializeJSONProperty indent (snd kv).

(** Objects built by literals and spreads here never repeat a name. *)
Fixpoint distinct_names (v : value) : Prop :=
  match v with
  | Str _ => True
  | Arr elements =>
      (fix all (l : list value) : Prop :=
         match l with
         | [] => True
         | x :: l' => distinct_names x /\ all l'
         end) elements
  | Obj properties =>
      NoDup (map fst properties)
      /\ (fix all (l : list (jsstring * value)) : Prop :=
            match l with
            | [] => True
            | kv :: l' => distinct_names (snd kv) /\ all l'
            end) properties
  end.

(** What enough fuel achieves, for a value, for the elements of an array
    up to its closing bracket, and for the members of an object up to its
    closing brace. *)
Definition reads_value (fuel : nat) : Prop :=
  forall (v : value) (indent ws rest : jsstring),
    blank ws -> blank indent -> distinct_names v ->
    (length (SerializeJSONProperty indent v) < fuel)%nat ->
    parse_value fuel (ws ++ SerializeJSONProperty indent v ++ rest)
    = Some (v, rest).

Definition reads_elements (fuel : nat) : Prop :=
  forall (l : list value) (indent ws back rest : jsstring),
    l <> [] -> blank ws -> blank indent -> blank back ->
    Forall distinct_names l ->
    (length (join (separator indent)
               (map (SerializeJSONProperty indent) l)) + 1 < fuel)%nat ->
    parse_elements fuel
      (ws ++ join (separator indent) (map (SerializeJSONProperty indent) l)
       ++ back ++ 93 :: rest)
    = Some (l, rest).

Definition reads_members (fuel : nat) : Prop :=
  forall (l : list (jsstring * value)) (indent ws back rest : jsstring),
    l <> [] -> blank ws -> blank indent -> blank back ->
    Forall (fun kv => distinct_names (snd kv)) l ->
    (length (join (separator indent) (map (member_text indent) l)) + 1
     < fuel)%nat ->
    parse_members fuel
      (ws ++ join (separator indent) (map (member_text indent) l)
       ++ back ++ 125 :: rest)
    = Some (l, rest).

End JSON.

(* ================================================================== *)
(** ** Export *)
(* ================================================================== *)

(** The object graph handed to [JSON.stringify]: property names in the
    order the factories and [basePersonalInfo] create them, which the
    spreads of the update handlers keep. *)
Module JsonExport.

Import JSON.

Definition strings (l : list jsstring) : value := Arr (map Str l).

Definition of_personal (p : PersonalInfo) : value :=
  Obj [ (lit "fullName", Str (fullName p));
        (lit "headline", Str (headline p));
        (lit "email", Str (email p));
        (lit "phone", Str (phone p));
        (lit "location", Str (p_location p));
        (lit "website", Str (website p));
        (lit "linkedin", Str (linkedin p));
        (lit "summary", Str (summary p)) ].

Definition of_experience (exp : Experience) : value :=
  Obj [ (lit "id", Str (x_id exp));
        (lit "role", Str (role exp));
        (lit "company", Str (company exp));
        (lit "location", Str (x_location exp));
        (lit "startDate", Str (x_startDate exp));
        (lit "endDate", Str (x_endDate exp));
        (lit "bullets", strings (bullets exp)) ].

Definition of_education (edu : Education) : value :=
  Obj [ (lit "id", Str (e_id edu));
        (lit "school", Str (school edu));
        (lit "degree", Str (degree edu));
        (lit "startDate", Str (e_startDate edu));
        (lit "endDate", Str (e_endDate edu));
        (lit "details", Str (details edu));
        (lit "location", Str (e_location edu)) ].

Definition of_project (project : Project) : value :=
  Obj [ (lit "id", Str (j_id project));
        (lit "name", Str (name project));
        (lit "description", Str (description project));
        (lit "link", Str (link project));
        (lit "highlights", strings (highlights project)) ].

Definition of_skill (block : SkillBlock) : value :=
  Obj [ (lit "id", Str (s_id block));
        (lit "label", Str (label block));
        (lit "items", Str (items block)) ].

(** [{ personal, experiences, educations, projects, skills }] *)
Definition of_document (d : ResumeDocument) : value :=
  Obj [ (lit "personal", of_personal (personal d));
        (lit "experiences", Arr (map of_experience (experiences d)));
        (lit "educations", Arr (map of_education (educations d)));
        (lit "projects", Arr (map of_project (projects d)));
        (lit "skills", Arr (map of_skill (skills d))) ].

(** *** Reading a parsed value back, property by property *)

Definition get (k : jsstring) (v : value) : option value :=
  match v with
  | Obj properties =>
      option_map snd (find (fun kv => streqb (fst kv) k) properties)
  | _ => None
  end.

Definition as_string (v : value) : option jsstring :=
  match v with
  | Str s => Some s
  | _ => None
  end.

Fixpoint each {A B : Type} (f : A -> option B) (l : list A)
  : option (list B) :=
  match l with
  | [] => Some []
  | x :: l' =>
      let? y := f x in
      let? ys := each f l' in
      Some (y :: ys)
  end.

Definition as_array {A : Type} (f : value -> option A) (v : value)
  : option (list A) :=
  match v with
  | Arr elements => each f elements
  | _ => None
  end.

Definition text (k : String.string) (v : value) : option jsstring :=
  let? x := get (lit k) v in as_string x.

Definition texts (k : String.string) (v : value) : option (list jsstring) :=
  let? x := get (lit k) v in as_array as_string x.

Arguments text k%_string_scope v.
Arguments texts k%_string_scope v.

Definition to_personal (v : value) : option PersonalInfo :=
  let? a := text "fullName" v in
  let? b := text "headline" v in
  let? c := text "email" v in
  let? d := text "phone" v in
  let? e := text "location" v in
  let? f := text "website" v in
  let? g := text "linkedin" v in
  let? h := text "summary" v in
  Some (mkPersonalInfo a b c d e f g h).

Definition to_experience (v : value) : option Experience :=
  let? a := text "id" v in
  let? b := text "role" v in
  let? c := text "company" v in
  let? d := text "location" v in
  let? e := text "startDate" v in
  let? f := text "endDate" v in
  let? g := texts "bullets" v in
  Some (mkExperience a b c d e f g).

Definition to_education (v : value) : option Education :=
  let? a := text "id" v in
  let? b := text "school" v in
  let? c := text "degree" v in
  let? d := text "startDate" v in
  let? e := text "endDate" v in
  let? f := text "details" v in
  let? g := text "location" v in
  Some (mkEducation a b c d e f g).

Definition to_project (v : value) : option Project :=
  let? a := text "id" v in
  let? b := text "name" v in
  let? c := text "description" v in
  let? d := text "link" v in
  let? e := texts "highlights" v in
  Some (mkProject a b c d e).

Definition to_skill (v : value) : option SkillBlock :=
  let? a := text "id" v in
  let? b := text "label" v in
  let? c := text "items" v in
  Some (mkSkillBlock a b c).

Definition to_document (v : value) : option ResumeDocument :=
  let? p := on (get (lit "personal") v) to_personal in
  let? xs := on (get (lit "experiences") v) (as_array to_experience) in
  let? es := on (get (lit "educations") v) (as_array to_education) in
  let? ps := on (get (lit "projects") v) (as_array to_project) in
  let? ss := on (get (lit "skills") v) (as_array to_skill) in
  Some (mkResumeDocument p xs es ps ss).

(** What the click on "Export JSON" hands to the browser. *)
Record Download : Type := mkDownload {
  download : jsstring;
  mime : jsstring;
  content : jsstring
}.

End JsonExport.

(** [exportAsJson]; [window_defined] is [typeof window !== "undefined"].
    Without a window the handler returns before doing anything. *)
Definition exportAsJson (window_defined : bool) (d : ResumeDocument)
  : option JsonExport.Download :=
  if window_defined
  then Some (JsonExport.mkDownload
               (lit "resume-builder-export.json")
               (lit "application/json")
               (JSON.stringify (JsonExport.of_document d)))
  else None.

(** Re-importing an exported file, as a reader of the export would. *)
Definition import_text (text : jsstring) : option ResumeDocument :=
  let? v := JSON.parse text in JsonExport.to_document v.

(* ================================================================== *)
(** ** Vocabulary of the statements *)
(* ================================================================== *)

(** The [satisfied] flag of the checklist item called [name]. *)
Definition item_satisfied (name : jsstring) (cl : list ChecklistItem)
  : option bool :=
  option_map satisfied (find (fun item => streqb (c_id item) name) cl).

(** The document of the worked example: Ada's contact details, one role
    without bullets, and any number of untouched records in the other
    lists. *)
Definition adaPersonal : PersonalInfo :=
  mkPersonalInfo (lit "Ada") (lit "Engineer") (lit "a@b.com") []
    (lit "NY") [] [] [].

Definition adaDocument (id : jsstring) (es ps ss : list jsstring)
  : ResumeDocument :=
  mkResumeDocument adaPersonal [createExperience id]
    (map createEducation es) (map createProject ps)
    (map createSkillBlock ss).

(** Replacing the bullets of the role called [id]. *)
Definition setBullets (id : jsstring) (bs : list jsstring)
  (d : ResumeDocument) : ResumeDocument :=
  with_experiences d
    (handleExperienceChange id (bulletsUpdate bs) (experiences d)).

(** [new] is what a spread leaves in a property that held [old] when the
    update says [upd] about it. *)
Definition merged (A : Type) (old : A) (upd : option A) (new : A) : Prop :=
  match upd with
  | Some v => new = v
  | None => new = old
  end.

(** A string that does not begin with white space. *)
Definition starts_clean (s : jsstring) : Prop :=
  match s with
  | [] => True
  | c :: _ => isWhiteSpace c = false
  end.

(** Every bullet the suggestion engine can draw from. *)
Definition libraryBullets : list jsstring :=
  flat_map entry_bullets roleSuggestionLibrary ++ genericBullets.

(** A role all of whose bullets are tidy. *)
Definition role_tidy (exp : Experience) : Prop := Forall tidy (bullets exp).

(* ================================================================== *)
(** ** The rest of the component *)
(* ================================================================== *)

(** [lines.join("\n")], the value a bullets or highlights text area
    shows. *)
Definition textareaValue (lines : list jsstring) : jsstring :=
  JSON.join [10%N] lines.

(** A string without a line feed. *)
Definition no_line_feed (b : jsstring) : Prop := ~ In 10%N b.

(** [s.startsWith(prefix)] *)
Fixpoint startsWith (s prefix : jsstring) {struct prefix} : bool :=
  match prefix with
  | [] => true
  | p :: prefix' =>
      match s with
      | c :: s' => N.eqb c p && startsWith s' prefix'
      | [] => false
      end
  end.

(** The [href] [ResumePreview] gives to a website, a LinkedIn address or a
    project link. *)
Definition linkHref (value : jsstring) : jsstring :=
  if startsWith value (lit "http") then value else lit "https://" ++ value.

(** The text shown for a website or a LinkedIn address:
    [value.replace(/^https?:\/\//, [])] with the empty replacement; the
    pattern is anchored at the start and has no flag. *)
Definition linkText (value : jsstring) : jsstring :=
  if startsWith value (lit "https://") then skipn 8 value
  else if startsWith value (lit "http://") then skipn 7 value
  else value.

(** The lists [ResumeBuilder] passes to [ResumePreview]. *)
Definition previewExperiences (d : ResumeDocument) : list Experience :=
  filter (fun exp => nonblank (role exp) || nonblank (company exp))
    (experiences d).

Definition previewEducations (d : ResumeDocument) : list Education :=
  filter (fun edu => nonblank (school edu) || nonblank (degree edu))
    (educations d).

Definition previewProjects (d : ResumeDocument) : list Project :=
  filter (fun project => nonblank (name project)
                         || nonblank (description project))
    (projects d).

Definition previewSkills (d : ResumeDocument) : list SkillBlock :=
  filter (fun block => nonblank (label block) || nonblank (items block))
    (skills d).

(** Identifiers are unique inside each list. *)
Definition ids_distinct (d : ResumeDocument) : Prop :=
  NoDup (map x_id (experiences d))
  /\ NoDup (map e_id (educations d))
  /\ NoDup (map j_id (projects d))
  /\ NoDup (map s_id (skills d)).

(** The identifier an add button draws is not in use in its list. *)
Definition fresh_for (d : ResumeDocument) (ev : Event) : Prop :=
  match ev with
  | AddRole id => ~ In id (map x_id (experiences d))
  | AddEducation id => ~ In id (map e_id (educations d))
  | AddProject id => ~ In id (map j_id (projects d))
  | AddBlock id => ~ In id (map s_id (skills d))
  | _ => True
  end.

(** Documents the form arrives at when [generateId] never repeats an
    identifier of the list it adds to. *)
Inductive reachable_fresh : ResumeDocument -> Prop :=
| fresh_initial (i1 i2 i3 i4 : jsstring) :
    reachable_fresh (initialDocument i1 i2 i3 i4)
| fresh_step (d d' : ResumeDocument) (ev : Event) :
    reachable_fresh d -> fresh_for d ev -> step d ev = Some d' ->
    reachable_fresh d'.

(** Events whose handler touches nothing the checklist reads. *)
Definition checklist_blind (ev : Event) : bool :=
  match ev with
  | EditPersonal Phone _ | EditPersonal Website _
  | EditPersonal LinkedIn _ => true
  | AddRole _ | AddProject _ | AddEducation _ | AddBlock _ => true
  | EditExperience _ _ _ => true
  | EditProject _ _ _ | EditHighlights _ _ | RemoveProject _ => true
  | EditEducation _ School _ | EditEducation _ EduStart _
  | EditEducation _ EduEnd _ | EditEducation _ EduLocation _ => true
  | EditSkill _ BlockLabel _ => true
  | _ => false
  end.

(** [a] implies [b], flag by flag. *)
Definition no_flag_lost (before after : list ChecklistItem) : Prop :=
  Forall2 (fun a b => satisfied a = true -> satisfied b = true)
    before after.

(** The handlers of a sequence of events, one after the other; [None] as
    soon as one of the controls is not on the page. *)
Fixpoint run (d : ResumeDocument) (evs : list Event)
  : option ResumeDocument :=
  match evs with
  | [] => Some d
  | ev :: evs' => let? d1 := step d ev in run d1 evs'
  end.


(* ================================================================== *)
(** ** The words of the specification *)
(* ================================================================== *)

(** White space, code point by code point: tab, line feed, vertical tab,
    form feed, carriage return, space, no-break space, the space
    separators U+1680, U+2000 to U+200A, U+202F, U+205F and U+3000, the
    line and paragraph separators and the byte order mark. *)
Definition white_space (c : N) : Prop :=
  In c [9; 10; 11; 12; 13; 32; 160; 5760; 8232; 8233; 8239; 8287; 12288;
        65279]%N
  \/ (8192 <= c <= 8202)%N.

(** A string that is not blank: it holds something else than white
    space. *)
Definition visible (s : jsstring) : Prop :=
  exists c, In c s /\ ~ white_space c.

(** [core] is [s] with its leading and trailing white space removed:
    white space before, white space after, and [core] neither starts nor
    ends with white space. *)
Definition trimmed_to (s core : jsstring) : Prop :=
  (exists pre post,
      s = pre ++ core ++ post
      /\ Forall white_space pre /\ Forall white_space post)
  /\ (forall c rest, core = c :: rest -> ~ white_space c)
  /\ (forall front c, core = front ++ [c] -> ~ white_space c).

(** The same character when the case of the letters a to z is ignored. *)
Definition same_letter (c x : N) : Prop :=
  x = c
  \/ ((97 <= c <= 122)%N /\ (x + 32 = c)%N)
  \/ ((97 <= x <= 122)%N /\ (c + 32 = x)%N).

(** The texts one alternative of a pattern stands for: each literal
    stands for its character in either case, [\s*] for any run of white
    space. *)
Inductive sequence_matches : list atom -> jsstring -> Prop :=
| sequence_end : sequence_matches [] []
| sequence_chr (c x : N) (p : list atom) (s : jsstring) :
    same_letter c x -> sequence_matches p s ->
    sequence_matches (Chr c :: p) (x :: s)
| sequence_ws (p : list atom) (ws s : jsstring) :
    Forall white_space ws -> sequence_matches p s ->
    sequence_matches (WsStar :: p) (ws ++ s).

(** A pattern matches a text when some part of the text is one of the
    texts an alternative of the pattern stands for. *)
Definition occurs (r : regexp) (s : jsstring) : Prop :=
  exists pre mid post alt,
    s = pre ++ mid ++ post /\ In alt r /\ sequence_matches alt mid.

(* ================================================================== *)
(** * Properties *)
(* ================================================================== *)

(** ** Strings and sets of strings *)

Lemma streqb_true_iff (a b : jsstring) : streqb a b = true <-> a = b.
Proof.
  revert b; induction a as [|x a IH]; intros [|y b]; simpl;
    try (split; [discriminate | discriminate]); try tauto.
  rewrite andb_true_iff, N.eqb_eq, IH.
  split; [intros [-> ->]; reflexivity | intros H; inversion H; auto].
Qed.

Lemma streqb_refl (a : jsstring) : streqb a a = true.
Proof. apply streqb_true_iff; reflexivity. Qed.

Lemma streqb_sym (a b : jsstring) : streqb a b = streqb b a.
Proof.
  destruct (streqb a b) eqn:E, (streqb b a) eqn:F; try reflexivity.
  - apply streqb_true_iff in E; subst. rewrite streqb_refl in F. discriminate.
  - apply streqb_true_iff in F; subst. rewrite streqb_refl in E. discriminate.
Qed.

Lemma includes_true_iff (a : list jsstring) (x : jsstring) :
  includes a x = true <-> In x a.
Proof.
  unfold includes. rewrite existsb_exists. split.
  - intros (y & Hy & E). apply streqb_true_iff in E. subst; assumption.
  - intros H. exists x. split; [assumption | apply streqb_refl].
Qed.

Lemma includes_app (a b : list jsstring) (x : jsstring) :
  includes (a ++ b) x = includes a x || includes b x.
Proof. unfold includes. apply existsb_app. Qed.

Lemma filter_filter (A : Type) (p q : A -> bool) (l : list A) :
  filter p (filter q l) = filter (fun x => q x && p x) l.
Proof.
  induction l as [|x l IH]; simpl; [reflexivity|].
  destruct (q x); simpl; [destruct (p x)|]; rewrite IH; reflexivity.
Qed.

Lemma Set_fold_keep_first (l acc : list jsstring) :
  fold_left Set_add l acc
  = acc ++ filter (fun y => negb (includes acc y)) (keep_first l).
Proof.
  revert acc; induction l as [|x l IH]; intros acc; simpl.
  - symmetry; apply app_nil_r.
  - rewrite IH. unfold Set_add. rewrite filter_filter.
    destruct (includes acc x) eqn:E; simpl.
    + f_equal. apply filter_ext. intros y.
      destruct (streqb y x) eqn:F; simpl; [|reflexivity].
      apply streqb_true_iff in F; subst. rewrite E. reflexivity.
    + rewrite <- app_assoc. simpl. do 2 f_equal. apply filter_ext. intros y.
      rewrite includes_app. unfold includes at 2. simpl.
      rewrite orb_false_r, negb_orb, andb_comm. reflexivity.
Qed.

Lemma Set_of_keep_first (l : list jsstring) : Set_of l = keep_first l.
Proof.
  unfold Set_of. rewrite Set_fold_keep_first. simpl.
  induction (keep_first l) as [|x k IH]; simpl; congruence.
Qed.

Lemma keep_first_In (l : list jsstring) (x : jsstring) :
  In x (keep_first l) <-> In x l.
Proof.
  induction l as [|y l IH]; simpl; [tauto|].
  rewrite filter_In, IH, negb_true_iff.
  destruct (streqb x y) eqn:E.
  - apply streqb_true_iff in E. subst. intuition discriminate.
  - assert (y <> x) by (intros ->; rewrite streqb_refl in E; discriminate).
    intuition.
Qed.

Lemma keep_first_NoDup (l : list jsstring) : NoDup (keep_first l).
Proof.
  induction l as [|x l IH]; simpl; constructor.
  - rewrite filter_In, streqb_refl. intros [_ H]. discriminate.
  - apply NoDup_filter. assumption.
Qed.

Lemma Set_of_In (l : list jsstring) (x : jsstring) :
  In x (Set_of l) <-> In x l.
Proof. rewrite Set_of_keep_first. apply keep_first_In. Qed.

(** ** Trimming: what stays and what goes *)

Lemma trimStart_starts_clean (s : jsstring) : starts_clean (trimStart s).
Proof.
  induction s as [|c s IH]; simpl; [exact I|].
  destruct (isWhiteSpace c) eqn:E; [exact IH | simpl; exact E].
Qed.

Lemma trimStart_fixed (s : jsstring) : starts_clean s -> trimStart s = s.
Proof. destruct s as [|c s]; simpl; [reflexivity | intros ->; reflexivity]. Qed.

Lemma trimStart_idem (s : jsstring) : trimStart (trimStart s) = trimStart s.
Proof. apply trimStart_fixed, trimStart_starts_clean. Qed.

Lemma trimStart_snoc (s : jsstring) (c : N) :
  isWhiteSpace c = false -> exists u, trimStart (s ++ [c]) = u ++ [c].
Proof.
  intros Hc. induction s as [|x s IH]; simpl.
  - rewrite Hc. exists []. reflexivity.
  - destruct (isWhiteSpace x); [exact IH|].
    exists (x :: s). reflexivity.
Qed.

Lemma trimEnd_starts_clean (s : jsstring) :
  starts_clean s -> starts_clean (trimEnd s).
Proof.
  destruct s as [|c s]; simpl; [intros _; exact I|]. intros Hc.
  unfold trimEnd. simpl.
  destruct (trimStart_snoc (rev s) c Hc) as (u & ->).
  rewrite rev_app_distr. simpl. exact Hc.
Qed.

Lemma trimEnd_idem (s : jsstring) : trimEnd (trimEnd s) = trimEnd s.
Proof. unfold trimEnd. rewrite rev_involutive, trimStart_idem. reflexivity. Qed.

Lemma trim_idem (s : jsstring) : trim (trim s) = trim s.
Proof.
  unfold trim at 1.
  rewrite (trimStart_fixed (trim s)).
  - unfold trim. apply trimEnd_idem.
  - unfold trim. apply trimEnd_starts_clean, trimStart_starts_clean.
Qed.

Lemma trimStart_In (s : jsstring) (c : N) : In c (trimStart s) -> In c s.
Proof.
  induction s as [|x s IH]; simpl; [tauto|].
  destruct (isWhiteSpace x); [intros H; right; apply IH, H | tauto].
Qed.

Lemma trim_In (s : jsstring) (c : N) : In c (trim s) -> In c s.
Proof.
  unfold trim, trimEnd. intros H.
  apply (proj2 (in_rev _ _)), trimStart_In in H.
  apply (proj2 (in_rev _ _)) in H. apply trimStart_In, H.
Qed.

Lemma trimStart_keeps (s : jsstring) (c : N) :
  In c s -> isWhiteSpace c = false -> In c (trimStart s).
Proof.
  intros Hin Hc. induction s as [|x s IH]; simpl in *; [tauto|].
  destruct (isWhiteSpace x) eqn:E.
  - destruct Hin as [-> | Hin]; [congruence | apply IH, Hin].
  - exact Hin.
Qed.

Lemma trim_keeps (s : jsstring) (c : N) :
  In c s -> isWhiteSpace c = false -> In c (trim s).
Proof.
  intros Hin Hc. unfold trim, trimEnd.
  apply (proj1 (in_rev _ _)).
  apply trimStart_keeps; [|exact Hc].
  apply (proj1 (in_rev _ _)). apply trimStart_keeps; assumption.
Qed.

Lemma trim_starts_clean (s : jsstring) : starts_clean (trim s).
Proof. apply trimEnd_starts_clean, trimStart_starts_clean. Qed.

Lemma isWhiteSpace_white (c : N) : isWhiteSpace c = true <-> white_space c.
Proof.
  unfold isWhiteSpace, white_space.
  rewrite !orb_true_iff, andb_true_iff, !N.eqb_eq, !N.leb_le.
  cbn [In]. lia.
Qed.

Lemma isWhiteSpace_not_white (c : N) :
  isWhiteSpace c = false <-> ~ white_space c.
Proof.
  rewrite <- isWhiteSpace_white. destruct (isWhiteSpace c); split;
    congruence.
Qed.

Lemma trimStart_split (s : jsstring) :
  exists pre, s = pre ++ trimStart s /\ Forall white_space pre.
Proof.
  induction s as [|c s (pre & Hs & Hpre)]; [exists []; split; constructor|].
  simpl. destruct (isWhiteSpace c) eqn:E.
  - exists (c :: pre). split; [simpl; congruence|].
    constructor; [apply isWhiteSpace_white, E | exact Hpre].
  - exists []. split; [reflexivity | constructor].
Qed.

Lemma trimEnd_split (t : jsstring) :
  exists post, t = trimEnd t ++ post /\ Forall white_space post.
Proof.
  unfold trimEnd. destruct (trimStart_split (rev t)) as (pre & Ht & Hpre).
  exists (rev pre). split.
  - rewrite <- rev_app_distr, <- Ht, rev_involutive. reflexivity.
  - apply Forall_rev, Hpre.
Qed.

Lemma trim_ends_clean (s : jsstring) (front : jsstring) (c : N) :
  trim s = front ++ [c] -> isWhiteSpace c = false.
Proof.
  unfold trim, trimEnd. intros E.
  apply (f_equal (@rev N)) in E.
  rewrite rev_involutive, rev_app_distr in E. cbn [rev app] in E.
  pose proof (trimStart_starts_clean (rev (trimStart s))) as H.
  rewrite E in H. exact H.
Qed.

Lemma trim_trimmed_to (s : jsstring) : trimmed_to s (trim s).
Proof.
  split; [|split].
  - destruct (trimStart_split s) as (pre & Hs & Hpre).
    destruct (trimEnd_split (trimStart s)) as (post & Ht & Hpost).
    exists pre, post. split; [|split; assumption].
    unfold trim. rewrite <- Ht. exact Hs.
  - intros c rest E. pose proof (trim_starts_clean s) as H.
    rewrite E in H. apply isWhiteSpace_not_white, H.
  - intros front c E. apply isWhiteSpace_not_white.
    exact (@trim_ends_clean s front c E).
Qed.

Lemma trimStart_blank (pre x : jsstring) :
  Forall white_space pre -> trimStart (pre ++ x) = trimStart x.
Proof.
  induction 1 as [|c pre Hc _ IH]; [reflexivity|].
  simpl. apply isWhiteSpace_white in Hc. rewrite Hc. exact IH.
Qed.

Lemma trimmed_to_unique (s core : jsstring) :
  trimmed_to s core -> core = trim s.
Proof.
  intros ((pre & post & -> & Hpre & Hpost) & Hstart & Hend).
  unfold trim. rewrite trimStart_blank by exact Hpre.
  destruct core as [|c core].
  - cbn [app]. rewrite <- (app_nil_r post), trimStart_blank by exact Hpost.
    reflexivity.
  - assert (Hc : isWhiteSpace c = false)
      by (apply isWhiteSpace_not_white, (Hstart c core eq_refl)).
    cbn [app trimStart]. rewrite Hc.
    change (c :: core ++ post) with ((c :: core) ++ post).
    unfold trimEnd. rewrite rev_app_distr.
    rewrite trimStart_blank by (apply Forall_rev, Hpost).
    rewrite trimStart_fixed; [symmetry; apply rev_involutive|].
    destruct (rev (c :: core)) as [|z zs] eqn:R; [exact I|].
    simpl. apply isWhiteSpace_not_white. apply (Hend (rev zs) z).
    rewrite <- (rev_involutive (c :: core)), R. reflexivity.
Qed.

Lemma trim_visible (s : jsstring) : trim s <> [] <-> visible s.
Proof.
  unfold visible. split.
  - intros Hne. pose proof (trim_starts_clean s) as Hc.
    destruct (trim s) as [|c t] eqn:E; [congruence|].
    exists c. split; [|apply isWhiteSpace_not_white, Hc].
    apply trim_In. rewrite E. left. reflexivity.
  - intros (c & Hin & Hc) E. apply isWhiteSpace_not_white in Hc.
    pose proof (trim_keeps s c Hin Hc) as H. rewrite E in H. exact H.
Qed.

Lemma trim_length_spec (s : jsstring) (n : nat) :
  n < length (trim s)
  <-> exists core, trimmed_to s core /\ n < length core.
Proof.
  split.
  - intros H. exists (trim s). split; [apply trim_trimmed_to | exact H].
  - intros (core & Ht & H). rewrite <- (@trimmed_to_unique s core Ht). exact H.
Qed.

Lemma chr_matches_same_letter (c x : N) :
  chr_matches c x = true <-> same_letter c x.
Proof.
  unfold chr_matches, canonicalize, same_letter. rewrite N.eqb_eq.
  destruct (N.leb 97 c && N.leb c 122)%bool eqn:Ec;
    destruct (N.leb 97 x && N.leb x 122)%bool eqn:Ex;
    rewrite ?andb_true_iff, ?andb_false_iff, ?N.leb_le, ?N.leb_gt in *;
    lia.
Qed.

Lemma matches_here_WsStar (p : list atom) (s : jsstring) :
  matches_here (WsStar :: p) s
  = (matches_here p s
     || match s with
        | x :: s' => isWhiteSpace x && matches_here (WsStar :: p) s'
        | [] => false
        end)%bool.
Proof. destruct s; reflexivity. Qed.

Lemma matches_here_sound (p : list atom) :
  forall s, matches_here p s = true ->
    exists mid post, s = mid ++ post /\ sequence_matches p mid.
Proof.
  induction p as [|[c|] p IH]; intros s.
  - intros _. exists [], s. split; [reflexivity | constructor].
  - destruct s as [|x s]; [discriminate|]. cbn [matches_here].
    rewrite andb_true_iff. intros (Hc & Hm).
    destruct (IH s Hm) as (mid & post & -> & Hmid).
    exists (x :: mid), post. split; [reflexivity|].
    constructor; [apply chr_matches_same_letter, Hc | exact Hmid].
  - induction s as [|x s IHs]; rewrite matches_here_WsStar, orb_true_iff.
    + intros [Hm | Hm]; [|discriminate].
      destruct (IH [] Hm) as (mid & post & E & Hmid).
      exists mid, post. split; [exact E|].
      apply (sequence_ws (ws := [])); [constructor | exact Hmid].
    + rewrite andb_true_iff. intros [Hm | (Hw & Hm)].
      * destruct (IH (x :: s) Hm) as (mid & post & E & Hmid).
        exists mid, post. split; [exact E|].
        apply (sequence_ws (ws := [])); [constructor | exact Hmid].
      * destruct (IHs Hm) as (mid & post & -> & Hmid).
        inversion Hmid as [| |? ws m Hws Hm' E1 E2]; subst.
        exists ((x :: ws) ++ m), post. split; [reflexivity|].
        constructor; [|exact Hm'].
        constructor; [apply isWhiteSpace_white, Hw | exact Hws].
Qed.

Lemma matches_here_complete (p : list atom) (mid : jsstring) :
  sequence_matches p mid ->
  forall post, matches_here p (mid ++ post) = true.
Proof.
  induction 1 as [|c x p s Hc _ IH|p ws s Hws _ IH]; intros post.
  - reflexivity.
  - cbn [app matches_here]. rewrite IH.
    apply chr_matches_same_letter in Hc. rewrite Hc. reflexivity.
  - induction Hws as [|w ws Hw _ IHws].
    + cbn [app]. rewrite matches_here_WsStar, IH. reflexivity.
    + rewrite matches_here_WsStar. cbn [app].
      apply isWhiteSpace_white in Hw. rewrite Hw.
      rewrite <- app_assoc in IHws. rewrite <- app_assoc, IHws.
      apply orb_true_r.
Qed.

Lemma alt_here_spec (r : regexp) (s : jsstring) :
  alt_here r s = true
  <-> exists mid post alt,
        s = mid ++ post /\ In alt r /\ sequence_matches alt mid.
Proof.
  unfold alt_here. rewrite existsb_exists. split.
  - intros (alt & Hin & Hm).
    destruct (matches_here_sound alt s Hm) as (mid & post & E & Hmid).
    exists mid, post, alt. tauto.
  - intros (mid & post & alt & -> & Hin & Hmid).
    exists alt. split; [exact Hin | apply matches_here_complete, Hmid].
Qed.

Lemma test_occurs (r : regexp) (s : jsstring) :
  test r s = true <-> occurs r s.
Proof.
  unfold occurs. induction s as [|x s IH].
  - cbn [test]. rewrite orb_false_r, alt_here_spec. split.
    + intros (mid & post & alt & E & H). exists [], mid, post, alt.
      split; [exact E | exact H].
    + intros (pre & mid & post & alt & E & H).
      destruct pre; [|discriminate]. exists mid, post, alt.
      split; [exact E | exact H].
  - cbn [test]. rewrite orb_true_iff, IH, alt_here_spec. split.
    + intros [(mid & post & alt & E & H)
             | (pre & mid & post & alt & E & H)].
      * exists [], mid, post, alt. split; [exact E | exact H].
      * exists (x :: pre), mid, post, alt.
        split; [rewrite E; reflexivity | exact H].
    + intros (pre & mid & post & alt & E & H). destruct pre as [|y pre].
      * left. exists mid, post, alt. split; [exact E | exact H].
      * right. injection E as _ E. exists pre, mid, post, alt.
        split; [exact E | exact H].
Qed.

(** ** Suggestion engine *)

(** C3: for all inputs, [getSuggestedBullets] is the first-occurrence
    de-duplication of the bullet groups of the matching library entries,
    taken in library order, followed by the generic group; the result
    holds no string twice and has exactly the members of that
    concatenation.  An entry matches when its pattern occurs in the role
    text or in the summary text, letters compared without their case. *)
Theorem getSuggestedBullets_spec (roleContext summaryContext : jsstring) :
  let matched :=
    filter (fun entry => test (pattern entry) roleContext
                         || test (pattern entry) summaryContext)
      roleSuggestionLibrary in
  let concatenation := flat_map entry_bullets matched ++ genericBullets in
  getSuggestedBullets roleContext summaryContext = keep_first concatenation
  /\ NoDup (getSuggestedBullets roleContext summaryContext)
  /\ (forall b, In b (getSuggestedBullets roleContext summaryContext)
                <-> In b concatenation)
  /\ (forall entry,
        In entry matched
        <-> In entry roleSuggestionLibrary
            /\ (occurs (pattern entry) roleContext
                \/ occurs (pattern entry) summaryContext))
  /\ (forall selects : LibraryEntry -> bool,
        (forall entry,
            selects entry = true
            <-> occurs (pattern entry) roleContext
                \/ occurs (pattern entry) summaryContext) ->
        getSuggestedBullets roleContext summaryContext
        = keep_first
            (flat_map entry_bullets (filter selects roleSuggestionLibrary)
             ++ genericBullets))
  /\ (forall b,
        In b (getSuggestedBullets roleContext summaryContext)
        <-> In b genericBullets
            \/ exists entry,
                 In entry roleSuggestionLibrary
                 /\ (occurs (pattern entry) roleContext
                     \/ occurs (pattern entry) summaryContext)
                 /\ In b (entry_bullets entry)).
Proof.
  cbv zeta. unfold getSuggestedBullets, libraryMatches, entry_matches.
  rewrite Set_of_keep_first.
  assert (M : forall entry,
             test (pattern entry) roleContext
             || test (pattern entry) summaryContext = true
             <-> occurs (pattern entry) roleContext
                 \/ occurs (pattern entry) summaryContext).
  { intros entry. rewrite orb_true_iff, !test_occurs. reflexivity. }
  split; [reflexivity|]. split; [apply keep_first_NoDup|].
  split; [intros b; apply keep_first_In|].
  split; [intros entry; rewrite filter_In, M; reflexivity|].
  split.
  - intros selects Hsel. do 3 f_equal. apply filter_ext. intros entry.
    destruct (selects entry) eqn:E.
    + apply M, Hsel, E.
    + destruct (test (pattern entry) roleContext
                || test (pattern entry) summaryContext) eqn:T;
        [|reflexivity].
      apply M, Hsel in T. congruence.
  - intros b. rewrite keep_first_In, in_app_iff, in_flat_map. split.
    + intros [(entry & Hin & Hb) | Hg]; [right | left; exact Hg].
      apply filter_In in Hin. destruct Hin as (Hin & Hm).
      exists entry. split; [exact Hin|]. split; [apply M, Hm | exact Hb].
    + intros [Hg | (entry & Hin & Hm & Hb)]; [right; exact Hg | left].
      exists entry. split; [|exact Hb]. apply filter_In.
      split; [exact Hin | apply M, Hm].
Qed.

(** C4: with both inputs empty the result is the three generic bullets in
    declaration order. *)
Theorem getSuggestedBullets_empty :
  getSuggestedBullets [] [] = genericBullets
  /\ length (getSuggestedBullets [] []) = 3.
Proof. split; vm_compute; reflexivity. Qed.

(** C5: for the role "Senior Software Engineer" and an empty summary the
    result is the three software bullets followed by the three generic
    bullets, each group in its own order. *)
Theorem getSuggestedBullets_senior_software_engineer :
  let result := getSuggestedBullets (lit "Senior Software Engineer") [] in
  result = softwareBullets ++ genericBullets
  /\ length softwareBullets = 3 /\ length genericBullets = 3
  /\ (forall i, i < 3 ->
        nth_error result i = nth_error softwareBullets i)
  /\ (forall j, j < 3 ->
        nth_error result (3 + j) = nth_error genericBullets j).
Proof.
  cbv zeta.
  assert (E : getSuggestedBullets (lit "Senior Software Engineer") []
              = softwareBullets ++ genericBullets)
    by (vm_compute; reflexivity).
  rewrite E. split; [reflexivity|]. split; [reflexivity|].
  split; [reflexivity|]. split.
  - intros i Hi. apply nth_error_app1. simpl. assumption.
  - intros j Hj. rewrite nth_error_app2 by (simpl; lia).
    f_equal. simpl. lia.
Qed.

Lemma genericBullets_NoDup : NoDup genericBullets.
Proof.
  assert (E : keep_first genericBullets = genericBullets)
    by (vm_compute; reflexivity).
  rewrite <- E. apply keep_first_NoDup.
Qed.

(** C6: [getSuggestedBullets] is a total function and, whatever the two
    strings, its result holds every generic bullet, so it has at least
    three members and is not empty. *)
Theorem getSuggestedBullets_has_generic (roleContext summaryContext : jsstring) :
  let result := getSuggestedBullets roleContext summaryContext in
  (forall b, In b genericBullets -> In b result)
  /\ 3 <= length result
  /\ result <> [].
Proof.
  cbv zeta.
  assert (I : incl genericBullets
                (getSuggestedBullets roleContext summaryContext)).
  { intros b Hb. unfold getSuggestedBullets. apply Set_of_In.
    apply in_or_app. right. assumption. }
  assert (L : 3 <= length (getSuggestedBullets roleContext summaryContext)).
  { change 3 with (length genericBullets).
    apply NoDup_incl_length; [apply genericBullets_NoDup | exact I]. }
  split; [exact I|]. split; [exact L|].
  intros E. rewrite E in L. simpl in L. lia.
Qed.

Example test_is_case_insensitive :
  map (fun entry => test (pattern entry) (lit "FULL  Stack UX lead"))
    roleSuggestionLibrary
  = [true; false; true; false].
Proof. vm_compute; reflexivity. Qed.

Example test_finds_pm_inside_a_word :
  getSuggestedBullets (lit "Development") (lit "big data")
  = productBullets ++ dataBullets ++ genericBullets.
Proof. vm_compute; reflexivity. Qed.

(** ** Checklist evaluator *)

Lemma nonblank_true_iff (s : jsstring) : nonblank s = true <-> trim s <> [].
Proof.
  unfold nonblank. rewrite Nat.ltb_lt.
  destruct (trim s); simpl; split; intros H; try lia; congruence.
Qed.

Lemma existsb_In (A : Type) (p : A -> bool) (l : list A) :
  existsb p l = true <-> exists x, In x l /\ p x = true.
Proof. apply existsb_exists. Qed.

(** C1: the checklist of any document has the five items contact, summary,
    experience, education, skills in that order, required in turn yes, no,
    yes, no, yes, and each [satisfied] flag is true exactly when the stated
    predicate on the document holds.  Trimming removes the white space, and
    nothing else, from both ends: a field counts when it holds something
    that is not white space, and the summary counts by the length of what
    is left between its leading and trailing white space. *)
Theorem checklist_spec (d : ResumeDocument) :
  exists contact summ experience education skill,
    checklist d = [contact; summ; experience; education; skill]
    /\ map c_id (checklist d)
       = [lit "contact"; lit "summary"; lit "experience"; lit "education";
          lit "skills"]
    /\ map required (checklist d) = [true; false; true; false; true]
    /\ (satisfied contact = true <->
          trim (fullName (personal d)) <> []
          /\ trim (headline (personal d)) <> []
          /\ trim (email (personal d)) <> []
          /\ trim (p_location (personal d)) <> [])
    /\ (satisfied summ = true <->
          60 < length (trim (summary (personal d))))
    /\ (satisfied experience = true <->
          exists exp, In exp (experiences d) /\ 3 <= length (bullets exp))
    /\ (satisfied education = true <->
          exists edu, In edu (educations d)
                      /\ (trim (degree edu) <> [] \/ trim (details edu) <> []))
    /\ (satisfied skill = true <->
          exists block, In block (skills d) /\ trim (items block) <> [])
    /\ (forall s, trimmed_to s (trim s))
    /\ (forall s core, trimmed_to s core -> core = trim s)
    /\ (satisfied contact = true <->
          visible (fullName (personal d))
          /\ visible (headline (personal d))
          /\ visible (email (personal d))
          /\ visible (p_location (personal d)))
    /\ (satisfied summ = true <->
          exists core,
            trimmed_to (summary (personal d)) core /\ 60 < length core)
    /\ (satisfied education = true <->
          exists edu, In edu (educations d)
                      /\ (visible (degree edu) \/ visible (details edu)))
    /\ (satisfied skill = true <->
          exists block, In block (skills d) /\ visible (items block)).
Proof.
  unfold checklist. do 5 eexists.
  split; [reflexivity|]. split; [reflexivity|]. split; [reflexivity|].
  cbn [satisfied].
  assert (C : nonblank (fullName (personal d))
              && nonblank (headline (personal d))
              && nonblank (email (personal d))
              && nonblank (p_location (personal d)) = true
              <-> trim (fullName (personal d)) <> []
                  /\ trim (headline (personal d)) <> []
                  /\ trim (email (personal d)) <> []
                  /\ trim (p_location (personal d)) <> []).
  { rewrite !andb_true_iff, !nonblank_true_iff. tauto. }
  assert (E : existsb
                (fun edu => nonblank (degree edu) || nonblank (details edu))
                (educations d) = true
              <-> exists edu, In edu (educations d)
                    /\ (trim (degree edu) <> []
                        \/ trim (details edu) <> [])).
  { rewrite existsb_In. split; intros (edu & Hin & Hb); exists edu;
      (split; [assumption|]);
      rewrite orb_true_iff, !nonblank_true_iff in *; assumption. }
  assert (K : existsb (fun block => nonblank (items block)) (skills d)
              = true
              <-> exists block, In block (skills d)
                    /\ trim (items block) <> []).
  { rewrite existsb_In. split; intros (block & Hin & Hb); exists block;
      (split; [assumption | apply nonblank_true_iff; assumption]). }
  split; [exact C|]. split; [apply Nat.ltb_lt|]. split.
  { rewrite existsb_In. split; intros (exp & Hin & Hb); exists exp;
      (split; [assumption | apply Nat.leb_le; assumption]). }
  split; [exact E|]. split; [exact K|].
  split; [apply trim_trimmed_to|].
  split; [apply trimmed_to_unique|].
  split; [rewrite C, !trim_visible; reflexivity|].
  split; [rewrite Nat.ltb_lt; apply trim_length_spec|].
  split.
  - rewrite E. split; intros (edu & Hin & Hb); exists edu;
      (split; [assumption|]); rewrite !trim_visible in *; assumption.
  - rewrite K. split; intros (block & Hin & Hb); exists block;
      (split; [assumption|]); rewrite !trim_visible in *; assumption.
Qed.

Lemma completedCount_le_total (cl : list ChecklistItem) :
  ChecklistPanel.completedCount cl <= ChecklistPanel.total cl.
Proof. apply filter_length_le. Qed.

Lemma completedCount_count (cl : list ChecklistItem) :
  ChecklistPanel.completedCount cl
  = count_occ bool_dec (map satisfied cl) true.
Proof.
  unfold ChecklistPanel.completedCount.
  induction cl as [|item cl IH]; simpl; [reflexivity|].
  destruct (satisfied item); simpl.
  - destruct (bool_dec true true); [simpl; congruence | congruence].
  - destruct (bool_dec false true); [discriminate | assumption].
Qed.

Lemma complete_iff_all (cl : list ChecklistItem) :
  ChecklistPanel.complete cl = true
  <-> forall item, In item cl -> satisfied item = true.
Proof. unfold ChecklistPanel.complete. apply forallb_forall. Qed.

Lemma complete_iff_count (cl : list ChecklistItem) :
  ChecklistPanel.complete cl = true
  <-> ChecklistPanel.completedCount cl = ChecklistPanel.total cl.
Proof.
  unfold ChecklistPanel.complete, ChecklistPanel.completedCount,
    ChecklistPanel.total.
  induction cl as [|item cl IH]; simpl; [tauto|].
  destruct (satisfied item); simpl.
  - rewrite IH. split; [congruence | intros H; injection H; auto].
  - pose proof (filter_length_le satisfied cl).
    split; [discriminate | lia].
Qed.

Example blank_summary_is_not_counted :
  item_satisfied (lit "summary")
    (checklist
       (with_personal (adaDocument (lit "r1") [] [] [])
          (setPersonal Summary (repeat 32%N 70) adaPersonal)))
  = Some false
  /\ item_satisfied (lit "summary")
       (checklist
          (with_personal (adaDocument (lit "r1") [] [] [])
             (setPersonal Summary (repeat 97%N 61) adaPersonal)))
     = Some true.
Proof. split; vm_compute; reflexivity. Qed.

(** C2: for the checklist of any document, the count shown is the number
    of satisfied items, the total is five, the complete flag holds exactly
    when every item is satisfied (equivalently when count and total
    agree), and an unsatisfied item that is not required makes it false. *)
Theorem checklist_summary (d : ResumeDocument) :
  let cl := checklist d in
  ChecklistPanel.completedCount cl = count_occ bool_dec (map satisfied cl) true
  /\ ChecklistPanel.total cl = 5
  /\ (ChecklistPanel.complete cl = true
      <-> forall item, In item cl -> satisfied item = true)
  /\ (ChecklistPanel.complete cl = true
      <-> ChecklistPanel.completedCount cl = ChecklistPanel.total cl)
  /\ (forall item, In item cl -> required item = false ->
        satisfied item = false -> ChecklistPanel.complete cl = false).
Proof.
  cbv zeta. split; [apply completedCount_count|].
  split; [reflexivity|]. split; [apply complete_iff_all|].
  split; [apply complete_iff_count|].
  intros item Hin _ Hs.
  destruct (ChecklistPanel.complete (checklist d)) eqn:E; [|reflexivity].
  rewrite (proj1 (complete_iff_all _) E item Hin) in Hs. discriminate.
Qed.

Lemma no_education_filled (es : list jsstring) :
  existsb (fun edu => nonblank (degree edu) || nonblank (details edu))
    (map createEducation es) = false.
Proof. induction es as [|i es IH]; simpl; [reflexivity | exact IH]. Qed.

Lemma no_skill_filled (ss : list jsstring) :
  existsb (fun block => nonblank (items block)) (map createSkillBlock ss)
  = false.
Proof. induction ss as [|i ss IH]; simpl; [reflexivity | exact IH]. Qed.

Lemma setBullets_ada (id : jsstring) (es ps ss bs : list jsstring) :
  experiences (setBullets id bs (adaDocument id es ps ss))
  = [mkExperience id [] [] [] [] [] bs].
Proof.
  unfold setBullets, handleExperienceChange, handleChange. simpl.
  rewrite streqb_refl. reflexivity.
Qed.

(** C7: in Ada's document the contact item is satisfied, the experience
    item is not and the checklist is not complete; giving the single role
    any three bullets satisfies the experience item and leaves the flag of
    every other item as it was. *)
Theorem ada_example (id : jsstring) (es ps ss bs : list jsstring) :
  length bs = 3 ->
  let before := checklist (adaDocument id es ps ss) in
  let after := checklist (setBullets id bs (adaDocument id es ps ss)) in
  item_satisfied (lit "contact") before = Some true
  /\ item_satisfied (lit "experience") before = Some false
  /\ ChecklistPanel.complete before = false
  /\ item_satisfied (lit "experience") after = Some true
  /\ (forall item_name, item_name <> lit "experience" ->
        item_satisfied item_name after = item_satisfied item_name before).
Proof.
  intros Hbs. cbv zeta. unfold checklist. rewrite setBullets_ada.
  cbn [adaDocument setBullets with_experiences personal experiences
         educations skills].
  rewrite no_education_filled, no_skill_filled.
  cbn [existsb bullets createExperience]. rewrite Hbs.
  split; [vm_compute; reflexivity|]. split; [vm_compute; reflexivity|].
  split; [vm_compute; reflexivity|]. split; [vm_compute; reflexivity|].
  intros item_name Hname. unfold item_satisfied. cbn [find c_id].
  destruct (streqb (lit "contact") item_name); [reflexivity|].
  destruct (streqb (lit "summary") item_name); [reflexivity|].
  destruct (streqb (lit "experience") item_name) eqn:E.
  - apply streqb_true_iff in E. congruence.
  - reflexivity.
Qed.

Lemma ada_example_witness :
  item_satisfied (lit "experience")
    (checklist
       (setBullets (lit "r1") [lit "a"; lit "b"; lit "c"]
          (adaDocument (lit "r1") [lit "e1"] [lit "p1"] [lit "s1"])))
  = Some true.
Proof.
  apply (ada_example (lit "r1") [lit "e1"] [lit "p1"] [lit "s1"]
           [lit "a"; lit "b"; lit "c"]).
  reflexivity.
Defined.

(** ** Updates keyed by identifier *)

Section KeyedUpdates.

Context {R U : Type} `{Keyed R U}.
Variables (id : jsstring) (updates : U).

Lemma handleChange_length (prev : list R) :
  length (handleChange id updates prev) = length prev.
Proof. unfold handleChange. apply length_map. Qed.

Lemma handleChange_nth (prev : list R) (i : nat) :
  nth_error (handleChange id updates prev) i
  = option_map
      (fun r => if streqb (ident r) id then spread r updates else r)
      (nth_error prev i).
Proof. unfold handleChange. apply nth_error_map. Qed.

Lemma handleChange_other (prev : list R) (i : nat) (r : R) :
  nth_error prev i = Some r -> ident r <> id ->
  nth_error (handleChange id updates prev) i = Some r.
Proof.
  intros Hnth Hid. rewrite handleChange_nth, Hnth. simpl.
  destruct (streqb (ident r) id) eqn:E; [|reflexivity].
  apply streqb_true_iff in E. contradiction.
Qed.

Lemma handleChange_target (prev : list R) (i : nat) (r : R) :
  nth_error prev i = Some r -> ident r = id ->
  nth_error (handleChange id updates prev) i = Some (spread r updates).
Proof.
  intros Hnth Hid. rewrite handleChange_nth, Hnth. simpl.
  rewrite Hid, streqb_refl. reflexivity.
Qed.

Lemma handleChange_absent (prev : list R) :
  (forall r, In r prev -> ident r <> id) ->
  handleChange id updates prev = prev.
Proof.
  unfold handleChange. induction prev as [|r prev IH]; intros Habs; simpl.
  - reflexivity.
  - rewrite IH by (intros r' Hr'; apply Habs; right; assumption).
    destruct (streqb (ident r) id) eqn:E; [|reflexivity].
    apply streqb_true_iff in E. exfalso.
    apply (Habs r); [left; reflexivity | assumption].
Qed.

Lemma handleChange_idents (prev : list R) :
  (forall r, ident (spread r updates) = ident r) ->
  map ident (handleChange id updates prev) = map ident prev.
Proof.
  intros Hkeep. unfold handleChange. rewrite map_map. apply map_ext.
  intros r. destruct (streqb (ident r) id); [apply Hkeep | reflexivity].
Qed.

End KeyedUpdates.

(** C9, as the code has it: for each of the four lists, an update keyed by
    [id] keeps the length of the list, keeps at every position a record
    whose identifier differs from [id], puts at the position of a record
    whose identifier is [id] that record spread with the update, and keeps
    the list when no record has the identifier; in the spread every
    property named by the update takes the given value and every other
    property keeps its own; and the identifiers of the list stay as they
    were whenever the update does not name the [id] property. *)
Theorem handleChange_frame :
  (forall (R U : Type) (K : Keyed R U) (id : jsstring) (updates : U)
          (prev : list R),
      length (handleChange id updates prev) = length prev
      /\ (forall i r, nth_error prev i = Some r -> ident r <> id ->
            nth_error (handleChange id updates prev) i = Some r)
      /\ (forall i r, nth_error prev i = Some r -> ident r = id ->
            nth_error (handleChange id updates prev) i
            = Some (spread r updates))
      /\ ((forall r, In r prev -> ident r <> id) ->
            handleChange id updates prev = prev))
  /\ (forall (exp : Experience) (u : PartialExperience),
        merged (x_id exp) (ux_id u) (x_id (spread exp u))
        /\ merged (role exp) (ux_role u) (role (spread exp u))
        /\ merged (company exp) (ux_company u) (company (spread exp u))
        /\ merged (x_location exp) (ux_location u) (x_location (spread exp u))
        /\ merged (x_startDate exp) (ux_startDate u)
             (x_startDate (spread exp u))
        /\ merged (x_endDate exp) (ux_endDate u) (x_endDate (spread exp u))
        /\ merged (bullets exp) (ux_bullets u) (bullets (spread exp u)))
  /\ (forall (edu : Education) (u : PartialEducation),
        merged (e_id edu) (ue_id u) (e_id (spread edu u))
        /\ merged (school edu) (ue_school u) (school (spread edu u))
        /\ merged (degree edu) (ue_degree u) (degree (spread edu u))
        /\ merged (e_startDate edu) (ue_startDate u)
             (e_startDate (spread edu u))
        /\ merged (e_endDate edu) (ue_endDate u) (e_endDate (spread edu u))
        /\ merged (details edu) (ue_details u) (details (spread edu u))
        /\ merged (e_location edu) (ue_location u)
             (e_location (spread edu u)))
  /\ (forall (project : Project) (u : PartialProject),
        merged (j_id project) (uj_id u) (j_id (spread project u))
        /\ merged (name project) (uj_name u) (name (spread project u))
        /\ merged (description project) (uj_description u)
             (description (spread project u))
        /\ merged (link project) (uj_link u) (link (spread project u))
        /\ merged (highlights project) (uj_highlights u)
             (highlights (spread project u)))
  /\ (forall (block : SkillBlock) (u : PartialSkillBlock),
        merged (s_id block) (us_id u) (s_id (spread block u))
        /\ merged (label block) (us_label u) (label (spread block u))
        /\ merged (items block) (us_items u) (items (spread block u)))
  /\ (forall id u prev, ux_id u = None ->
        map x_id (handleExperienceChange id u prev) = map x_id prev)
  /\ (forall id u prev, ue_id u = None ->
        map e_id (handleEducationChange id u prev) = map e_id prev)
  /\ (forall id u prev, uj_id u = None ->
        map j_id (handleProjectChange id u prev) = map j_id prev)
  /\ (forall id u prev, us_id u = None ->
        map s_id (handleSkillChange id u prev) = map s_id prev).
Proof.
  split.
  { intros R U K id updates prev. split; [apply handleChange_length|].
    split; [intros i r; apply handleChange_other|].
    split; [intros i r; apply handleChange_target|].
    apply handleChange_absent. }
  split.
  { intros exp [a b c d e f g]; simpl.
    destruct a, b, c, d, e, f, g; simpl; repeat split. }
  split.
  { intros edu [a b c d e f g]; simpl.
    destruct a, b, c, d, e, f, g; simpl; repeat split. }
  split.
  { intros project [a b c d e]; simpl.
    destruct a, b, c, d, e; simpl; repeat split. }
  split.
  { intros block [a b c]; simpl. destruct a, b, c; simpl; repeat split. }
  split; [|split; [|split]]; intros id u prev Hid.
  - apply (handleChange_idents (H := Keyed_Experience)).
    intros r. simpl. rewrite Hid. reflexivity.
  - apply (handleChange_idents (H := Keyed_Education)).
    intros r. simpl. rewrite Hid. reflexivity.
  - apply (handleChange_idents (H := Keyed_Project)).
    intros r. simpl. rewrite Hid. reflexivity.
  - apply (handleChange_idents (H := Keyed_SkillBlock)).
    intros r. simpl. rewrite Hid. reflexivity.
Qed.

Lemma handleChange_frame_witness :
  ux_id (experienceInput Role (lit "Engineer")) = None
  /\ map x_id
       (handleExperienceChange (lit "r1")
          (experienceInput Role (lit "Engineer"))
          [createExperience (lit "r1"); createExperience (lit "r2")])
     = [lit "r1"; lit "r2"].
Proof.
  split; [reflexivity|].
  destruct handleChange_frame as (_ & _ & _ & _ & _ & Hx & _).
  exact (Hx (lit "r1") (experienceInput Role (lit "Engineer"))
           [createExperience (lit "r1"); createExperience (lit "r2")]
           eq_refl).
Defined.

(** C9 as worded fails: an update that names the [id] property renames the
    record it is merged into. *)
Lemma handleChange_renames :
  map x_id
    (handleExperienceChange (lit "r1")
       (mkPartialExperience (Some (lit "r9")) None None None None None None)
       [createExperience (lit "r1"); createExperience (lit "r2")])
  = [lit "r9"; lit "r2"]
  /\ ~ (forall id u prev,
          map x_id (handleExperienceChange id u prev) = map x_id prev).
Proof.
  split; [vm_compute; reflexivity|].
  intros Hall.
  specialize (Hall (lit "r1")
    (mkPartialExperience (Some (lit "r9")) None None None None None None)
    [createExperience (lit "r1")]).
  vm_compute in Hall. discriminate.
Qed.

(** ** Trimming *)

Example trim_strips_both_ends :
  trim ([9; 32; 8195; 160]%N ++ lit "a b" ++ [13; 10; 65279]%N) = lit "a b"
  /\ trim (repeat 32%N 70) = [].
Proof. split; vm_compute; reflexivity. Qed.

(** ** Bullets kept by the form *)

Lemma bulletsOfText_tidy (value : jsstring) :
  Forall tidy (bulletsOfText value).
Proof.
  unfold bulletsOfText. apply Forall_forall. intros b Hb.
  apply filter_In in Hb. destruct Hb as (Hb & Hlen).
  apply in_map_iff in Hb. destruct Hb as (line & <- & _).
  split; [apply trim_idem|].
  intros E. rewrite E in Hlen. discriminate.
Qed.

Lemma bulletsOfText_count (value : jsstring) :
  length (bulletsOfText value)
  = length (filter nonblank (split_lines value)).
Proof.
  unfold bulletsOfText.
  induction (split_lines value) as [|line ls IH]; simpl; [reflexivity|].
  unfold nonblank at 1.
  destruct (0 <? length (trim line)); simpl; rewrite IH; reflexivity.
Qed.

Lemma libraryBullets_tidy : Forall tidy libraryBullets.
Proof.
  repeat (apply Forall_cons;
          [split; [vm_compute; reflexivity | discriminate]|]).
  apply Forall_nil.
Qed.

Lemma getSuggestedBullets_from_library (role0 summary0 b : jsstring) :
  In b (getSuggestedBullets role0 summary0) -> In b libraryBullets.
Proof.
  unfold getSuggestedBullets, libraryBullets, libraryMatches.
  rewrite Set_of_In, !in_app_iff, !in_flat_map.
  intros [(entry & Hin & Hb) | Hg]; [left | right; assumption].
  exists entry. apply filter_In in Hin. tauto.
Qed.

Lemma slice0_In (n : nat) (a : list jsstring) (x : jsstring) :
  In x (slice0 n a) -> In x a.
Proof.
  unfold slice0. revert a; induction n as [|n IH]; intros [|y a]; simpl;
    try tauto.
  intros [E | Hx]; [left; assumption | right; apply IH; assumption].
Qed.

Lemma offered_suggestion_tidy (p : PersonalInfo) (exp : Experience)
  (k : nat) (suggestion : jsstring) :
  nth_error (slice0 4 (suggestions p exp)) k = Some suggestion ->
  tidy suggestion.
Proof.
  intros Hk. apply nth_error_In in Hk.
  apply slice0_In in Hk. unfold suggestions in Hk.
  apply filter_In in Hk. destruct Hk as (Hk & _).
  apply getSuggestedBullets_from_library in Hk.
  exact (proj1 (Forall_forall _ _) libraryBullets_tidy _ Hk).
Qed.

Lemma handleExperienceChange_tidy (id : jsstring) (u : PartialExperience)
  (prev : list Experience) :
  match ux_bullets u with
  | Some bs => Forall tidy bs
  | None => True
  end ->
  Forall role_tidy prev ->
  Forall role_tidy (handleExperienceChange id u prev).
Proof.
  intros Hu Hprev. unfold handleExperienceChange, handleChange.
  apply Forall_map. revert Hprev. apply Forall_impl. intros exp Hexp.
  destruct (streqb (ident exp) id); [|assumption].
  unfold role_tidy. simpl. destruct (ux_bullets u); assumption.
Qed.

Lemma removeById_tidy (id : jsstring) (prev : list Experience) :
  Forall role_tidy prev -> Forall role_tidy (removeById id prev).
Proof.
  intros Hprev. unfold removeById. apply Forall_forall. intros exp Hexp.
  apply filter_In in Hexp.
  exact (proj1 (Forall_forall _ _) Hprev _ (proj1 Hexp)).
Qed.

Lemma step_keeps_bullets_tidy (d d' : ResumeDocument) (ev : Event) :
  bullets_tidy d -> step d ev = Some d' -> bullets_tidy d'.
Proof.
  unfold bullets_tidy. fold role_tidy. intros Hd Hstep.
  destruct ev; simpl in Hstep;
    repeat match type of Hstep with
      | on ?o _ = Some _ =>
          let E := fresh "E" in
          destruct o eqn:E; simpl in Hstep; [|discriminate]
      | (if ?c then _ else _) = Some _ =>
          destruct c; [|discriminate]
      end;
    injection Hstep as <-; simpl; try assumption.
  - apply Forall_app. split; [assumption|].
    constructor; [apply Forall_nil | apply Forall_nil].
  - apply handleExperienceChange_tidy; [|assumption].
    destruct f; exact I.
  - apply handleExperienceChange_tidy; [|assumption].
    apply bulletsOfText_tidy.
  - apply handleExperienceChange_tidy; [|assumption]. simpl.
    apply Forall_app. split.
    + apply nth_error_In in E.
      exact (proj1 (Forall_forall _ _) Hd _ E).
    + constructor; [|apply Forall_nil].
      eapply offered_suggestion_tidy; eassumption.
  - apply removeById_tidy. assumption.
Qed.

(** C10: in every document the form can arrive at, each stored bullet is
    already trimmed and not empty; the bullets text area stores exactly one
    bullet per line that is not blank, and a suggestion the form offers is
    itself trimmed and not empty. *)
Theorem stored_bullets_tidy (d : ResumeDocument) :
  reachable d ->
  (forall exp b, In exp (experiences d) -> In b (bullets exp) ->
     trim b = b /\ b <> [])
  /\ (forall value,
        Forall tidy (bulletsOfText value)
        /\ length (bulletsOfText value)
           = length (filter nonblank (split_lines value)))
  /\ (forall exp k suggestion,
        nth_error (slice0 4 (suggestions (personal d) exp)) k
        = Some suggestion -> tidy suggestion).
Proof.
  intros Hd. split; [|split].
  - assert (T : bullets_tidy d).
    { induction Hd as [i1 i2 i3 i4 | d d' ev _ IH Hstep].
      - repeat constructor.
      - eapply step_keeps_bullets_tidy; eassumption. }
    intros exp b Hexp Hb.
    pose proof (proj1 (Forall_forall _ _) T _ Hexp) as Hrole.
    exact (proj1 (Forall_forall _ _) Hrole _ Hb).
  - intros value. split; [apply bulletsOfText_tidy | apply bulletsOfText_count].
  - intros exp k suggestion. apply offered_suggestion_tidy.
Qed.

Lemma stored_bullets_tidy_witness :
  exists d,
    step (initialDocument (lit "r1") (lit "e1") (lit "p1") (lit "s1"))
      (EditBullets 0 ([32; 32]%N ++ lit "Led a team" ++ [32; 10; 9; 10]%N
                      ++ lit "Shipped"))
    = Some d
    /\ map bullets (experiences d) = [[lit "Led a team"; lit "Shipped"]]
    /\ (forall exp b, In exp (experiences d) -> In b (bullets exp) ->
          trim b = b /\ b <> []).
Proof.
  exists (with_experiences
            (initialDocument (lit "r1") (lit "e1") (lit "p1") (lit "s1"))
            [mkExperience (lit "r1") [] [] [] [] []
               [lit "Led a team"; lit "Shipped"]]).
  split; [vm_compute; reflexivity|].
  split; [vm_compute; reflexivity|].
  apply stored_bullets_tidy.
  apply (@reachable_step
           (initialDocument (lit "r1") (lit "e1") (lit "p1") (lit "s1")) _
           (EditBullets 0
              ([32; 32]%N ++ lit "Led a team" ++ [32; 10; 9; 10]%N
               ++ lit "Shipped"))).
  - apply reachable_initial.
  - vm_compute; reflexivity.
Defined.

(** ** JSON: string literals *)

Module JSONFacts.

Import JSON.
Local Open Scope N_scope.

Lemma hexval_hexdigit (n : N) : n < 16 -> hexval (hexdigit n) = Some n.
Proof.
  intros Hn. destruct n as [|p]; [reflexivity|].
  do 4 (try destruct p as [p | p |]); try reflexivity; exfalso; lia.
Qed.

Lemma hex4_digits (c : N) :
  c < 65536 ->
  hex4 (hexdigit ((c / 4096) mod 16)) (hexdigit ((c / 256) mod 16))
    (hexdigit ((c / 16) mod 16)) (hexdigit (c mod 16))
  = Some c.
Proof.
  intros Hc. unfold hex4.
  rewrite !hexval_hexdigit by (apply N.mod_upper_bound; discriminate).
  cbn [on]. f_equal.
  zify. Z.to_euclidean_division_equations. lia.
Qed.

Lemma parse_chars_plain (c : N) (r : jsstring) :
  (c =? 34) = false -> (c =? 92) = false -> (c <? 32) = false ->
  parse_chars (c :: r) = prepend c (parse_chars r).
Proof. intros E1 E2 E3. cbn [parse_chars]. rewrite E1, E2, E3. reflexivity. Qed.

Lemma parse_chars_unicode (c : N) (r : jsstring) :
  c < 65536 ->
  parse_chars (UnicodeEscape c ++ r) = prepend c (parse_chars r).
Proof.
  intros Hc. unfold UnicodeEscape. cbn [app parse_chars].
  change (92 =? 34) with false. change (92 =? 92) with true.
  change (117 =? 34) with false. change (117 =? 47) with false.
  change (117 =? 92) with false. change (117 =? 98) with false.
  change (117 =? 102) with false. change (117 =? 110) with false.
  change (117 =? 114) with false. change (117 =? 116) with false.
  change (117 =? 117) with true. cbv iota.
  rewrite hex4_digits by assumption. reflexivity.
Qed.

Lemma surrogate_bounds (c : N) :
  isLeadingSurrogate c || isTrailingSurrogate c = true ->
  c < 65536 /\ (c =? 34) = false /\ (c =? 92) = false /\ (c <? 32) = false.
Proof.
  unfold isLeadingSurrogate, isTrailingSurrogate.
  rewrite orb_true_iff, !andb_true_iff, !N.leb_le.
  rewrite !N.eqb_neq, N.ltb_ge. lia.
Qed.

Lemma parse_chars_quote_units_bounded (n : nat) :
  forall (s rest : jsstring), (length s <= n)%nat ->
    parse_chars (quote_units s ++ 34 :: rest) = Some (s, rest).
Proof.
  induction n as [|n IH]; intros [|c s] rest Hlen;
    try reflexivity; simpl in Hlen; [lia|].
  assert (IHs : forall rest', parse_chars (quote_units s ++ 34 :: rest')
                              = Some (s, rest'))
    by (intros rest'; apply IH; lia).
  cbn [quote_units].
  destruct (c =? 8) eqn:E8;
    [apply N.eqb_eq in E8; subst; cbn; rewrite IHs; reflexivity|].
  destruct (c =? 9) eqn:E9;
    [apply N.eqb_eq in E9; subst; cbn; rewrite IHs; reflexivity|].
  destruct (c =? 10) eqn:E10;
    [apply N.eqb_eq in E10; subst; cbn; rewrite IHs; reflexivity|].
  destruct (c =? 12) eqn:E12;
    [apply N.eqb_eq in E12; subst; cbn; rewrite IHs; reflexivity|].
  destruct (c =? 13) eqn:E13;
    [apply N.eqb_eq in E13; subst; cbn; rewrite IHs; reflexivity|].
  destruct (c =? 34) eqn:E34;
    [apply N.eqb_eq in E34; subst; cbn; rewrite IHs; reflexivity|].
  destruct (c =? 92) eqn:E92;
    [apply N.eqb_eq in E92; subst; cbn; rewrite IHs; reflexivity|].
  destruct (c <? 32) eqn:E32.
  { rewrite <- app_assoc, parse_chars_unicode, IHs; [reflexivity|].
    apply N.ltb_lt in E32. lia. }
  destruct (isLeadingSurrogate c) eqn:EL.
  { destruct (surrogate_bounds c) as (Hc & _); [rewrite EL; reflexivity|].
    destruct s as [|c2 s2].
    - rewrite parse_chars_unicode by assumption. reflexivity.
    - destruct (isTrailingSurrogate c2) eqn:ET.
      + destruct (surrogate_bounds c2) as (_ & F1 & F2 & F3);
          [rewrite ET; apply orb_true_r|].
        cbn [app].
        rewrite parse_chars_plain by assumption.
        rewrite parse_chars_plain by assumption.
        rewrite IH by (simpl in Hlen; lia). reflexivity.
      + rewrite <- app_assoc, parse_chars_unicode, IHs; [reflexivity|].
        assumption. }
  destruct (isTrailingSurrogate c) eqn:ET.
  { destruct (surrogate_bounds c) as (Hc & _);
      [rewrite ET; apply orb_true_r|].
    rewrite <- app_assoc, parse_chars_unicode, IHs; [reflexivity|].
    assumption. }
  cbn [app]. rewrite parse_chars_plain, IHs by assumption. reflexivity.
Qed.

Lemma parse_chars_quote_units (s rest : jsstring) :
  parse_chars (quote_units s ++ 34 :: rest) = Some (s, rest).
Proof. apply parse_chars_quote_units_bounded with (n := length s). apply le_n. Qed.

(** ** JSON: white space, tokens and lengths *)

Lemma skip_ws_blank (ws r : jsstring) :
  blank ws -> skip_ws (ws ++ r) = skip_ws r.
Proof.
  induction 1 as [|c ws Hc _ IH]; simpl; [reflexivity|].
  rewrite Hc. exact IH.
Qed.

Lemma skip_ws_token (c : N) (r : jsstring) :
  isJSONWhiteSpace c = false -> skip_ws (c :: r) = c :: r.
Proof. intros Hc. simpl. rewrite Hc. reflexivity. Qed.

Lemma skip_to_token (ws : jsstring) (c : N) (r : jsstring) :
  blank ws -> isJSONWhiteSpace c = false ->
  skip_ws (ws ++ c :: r) = c :: r.
Proof. intros Hws Hc. rewrite skip_ws_blank, skip_ws_token; auto. Qed.

Lemma blank_gap (indent : jsstring) : blank indent -> blank (indent ++ gap).
Proof.
  intros Hi. apply Forall_app. split; [assumption|].
  repeat constructor.
Qed.

Lemma blank_line (indent : jsstring) : blank indent -> blank (10 :: indent).
Proof. intros Hi. constructor; [reflexivity | assumption]. Qed.

Lemma opener_token (c : N) :
  opener c ->
  isJSONWhiteSpace c = false /\ (c =? 93) = false /\ (c =? 125) = false.
Proof. intros [-> | [-> | ->]]; repeat split. Qed.

Lemma SerializeJSONProperty_head (indent : jsstring) (v : value) :
  exists c t, SerializeJSONProperty indent v = c :: t /\ opener c.
Proof.
  unfold opener. destruct v as [s | l | l]; cbn [SerializeJSONProperty].
  - exists 34; eexists. split; [reflexivity | auto].
  - exists 91. unfold enclose.
    destruct (map _ l); eexists; (split; [reflexivity | auto]).
  - exists 123. unfold enclose.
    destruct (map _ l); eexists; (split; [reflexivity | auto]).
Qed.

Lemma join_two (sep x y : jsstring) (l : list jsstring) :
  join sep (x :: y :: l) = x ++ sep ++ join sep (y :: l).
Proof. reflexivity. Qed.

Lemma join_head (sep : jsstring) (c : N) (t : jsstring)
  (l : list jsstring) :
  exists t', join sep (@cons jsstring (c :: t) l) = c :: t'.
Proof. destruct l; simpl; eexists; reflexivity. Qed.

Lemma enclose_cons (opening closing : N) (stepback indent x : jsstring)
  (l : list jsstring) :
  enclose opening closing stepback indent (x :: l)
  = opening :: (10 :: indent) ++ join (separator indent) (x :: l)
    ++ (10 :: stepback) ++ [closing].
Proof. reflexivity. Qed.

(** ** JSON: objects without repeated names *)

Lemma define_fresh (o : list (jsstring * value)) (k : jsstring) (v : value) :
  ~ In k (map fst o) -> define o k v = o ++ [(k, v)].
Proof.
  induction o as [|[k' v'] o IH]; simpl; intros Hk; [reflexivity|].
  destruct (streqb k' k) eqn:E.
  - apply streqb_true_iff in E. tauto.
  - rewrite IH by tauto. reflexivity.
Qed.

Lemma define_all (l acc : list (jsstring * value)) :
  NoDup (map fst (acc ++ l)) ->
  fold_left (fun o kv => define o (fst kv) (snd kv)) l acc = acc ++ l.
Proof.
  revert acc; induction l as [|[k v] l IH]; intros acc Hnd; simpl.
  - symmetry; apply app_nil_r.
  - rewrite define_fresh.
    + rewrite IH; rewrite <- app_assoc; [reflexivity | exact Hnd].
    + rewrite map_app in Hnd. simpl in Hnd.
      apply NoDup_remove_2 in Hnd. intros Hin. apply Hnd.
      apply in_or_app. left. assumption.
Qed.

Lemma properties_of_distinct (l : list (jsstring * value)) :
  NoDup (map fst l) -> properties_of l = l.
Proof. intros Hnd. unfold properties_of. rewrite define_all; auto. Qed.

Lemma distinct_names_Arr (l : list value) :
  distinct_names (Arr l) <-> Forall distinct_names l.
Proof.
  cbn [distinct_names]. induction l as [|x l IH].
  - split; [constructor | exact (fun _ => I)].
  - rewrite IH. split.
    + intros [Hx Hl]. constructor; assumption.
    + intros H. inversion H; subst. split; assumption.
Qed.

Lemma distinct_names_Obj (l : list (jsstring * value)) :
  distinct_names (Obj l)
  <-> NoDup (map fst l) /\ Forall (fun kv => distinct_names (snd kv)) l.
Proof.
  cbn [distinct_names]. apply and_iff_compat_l.
  induction l as [|x l IH].
  - split; [constructor | exact (fun _ => I)].
  - rewrite IH. split.
    + intros [Hx Hl]. constructor; assumption.
    + intros H. inversion H; subst. split; assumption.
Qed.

(** ** JSON: the parser reads back what the serialiser writes *)

Lemma parse_value_S (fuel : nat) (s : jsstring) :
  parse_value (S fuel) s
  = match skip_ws s with
    | [] => None
    | c :: r =>
        if c =? 34 then
          let? (str, r1) := parse_chars r in Some (Str str, r1)
        else if c =? 91 then
          match skip_ws r with
          | [] => None
          | c1 :: r1 =>
              if c1 =? 93 then Some (Arr [], r1)
              else
                let? (vs, r2) := parse_elements fuel r in
                Some (Arr vs, r2)
          end
        else if c =? 123 then
          match skip_ws r with
          | [] => None
          | c1 :: r1 =>
              if c1 =? 125 then Some (Obj [], r1)
              else
                let? (ms, r2) := parse_members fuel r in
                Some (Obj (properties_of ms), r2)
          end
        else None
    end.
Proof. reflexivity. Qed.

Lemma parse_elements_S (fuel : nat) (s : jsstring) :
  parse_elements (S fuel) s
  = let? (v, r) := parse_value fuel s in
    match skip_ws r with
    | [] => None
    | c :: r1 =>
        if c =? 44 then
          let? (vs, r2) := parse_elements fuel r1 in Some (v :: vs, r2)
        else if c =? 93 then Some ([v], r1)
        else None
    end.
Proof. reflexivity. Qed.

Lemma parse_members_S (fuel : nat) (s : jsstring) :
  parse_members (S fuel) s
  = match skip_ws s with
    | [] => None
    | c :: r =>
        if c =? 34 then
          let? (k, r1) := parse_chars r in
          match skip_ws r1 with
          | [] => None
          | c1 :: r2 =>
              if c1 =? 58 then
                let? (v, r3) := parse_value fuel r2 in
                match skip_ws r3 with
                | [] => None
                | c3 :: r4 =>
                    if c3 =? 44 then
                      let? (ms, r5) := parse_members fuel r4 in
                      Some ((k, v) :: ms, r5)
                    else if c3 =? 125 then Some ([(k, v)], r4)
                    else None
                end
              else None
          end
        else None
    end.
Proof. reflexivity. Qed.

Lemma separator_app (indent x : jsstring) :
  separator indent ++ x = 44 :: (10 :: indent) ++ x.
Proof. reflexivity. Qed.

Lemma separator_length (indent : jsstring) :
  length (separator indent) = S (S (length indent)).
Proof. reflexivity. Qed.

Lemma reads_elements_step (fuel : nat) :
  reads_value fuel -> reads_elements fuel -> reads_elements (S fuel).
Proof.
  intros HV HE l indent ws back rest Hl Hws Hin Hback Hd Hfuel.
  destruct l as [|v l]; [congruence|]. clear Hl.
  inversion Hd as [|? ? Hv Hrest]; subst.
  rewrite parse_elements_S.
  destruct l as [|v2 l].
  - cbn [map join] in *.
    rewrite HV by (auto; lia). cbn [on].
    rewrite skip_to_token by auto.
    reflexivity.
  - cbn [map] in *. rewrite join_two in *.
    rewrite !length_app, separator_length in Hfuel.
    rewrite <- !app_assoc, HV by (auto; lia). cbn [on].
    rewrite separator_app, skip_ws_token by reflexivity.
    change (44 =? 44) with true. cbv iota.
    specialize (HE (v2 :: l) indent (10 :: indent) back rest).
    cbn [map] in HE.
    rewrite HE;
      [reflexivity | discriminate | apply blank_line; assumption
      | assumption | assumption | assumption | lia].
Qed.

Lemma reads_members_step (fuel : nat) :
  reads_value fuel -> reads_members fuel -> reads_members (S fuel).
Proof.
  intros HV HM l indent ws back rest Hl Hws Hin Hback Hd Hfuel.
  destruct l as [|[k v] l]; [congruence|]. clear Hl.
  inversion Hd as [|? ? Hv Hrest]; subst. cbn [snd] in Hv.
  assert (Hone : forall tail,
    ws ++ member_text indent (k, v) ++ tail
    = ws ++ 34 :: quote_units k
      ++ 34 :: 58 :: [32] ++ SerializeJSONProperty indent v ++ tail).
  { intros tail. unfold member_text, QuoteJSONString. cbn [fst snd].
    rewrite <- !app_assoc. reflexivity. }
  assert (Hlen : length (member_text indent (k, v))
                 = (length (quote_units k)
                    + length (SerializeJSONProperty indent v) + 4)%nat).
  { unfold member_text, QuoteJSONString. cbn [fst snd].
    rewrite !length_app. cbn [length]. lia. }
  rewrite parse_members_S.
  destruct l as [|kv2 l].
  - cbn [map join] in *. rewrite Hlen in Hfuel.
    rewrite <- ?app_assoc, Hone, skip_to_token by auto.
    change (34 =? 34) with true. cbv iota.
    rewrite parse_chars_quote_units. cbn [on].
    rewrite skip_ws_token by reflexivity.
    change (58 =? 58) with true. cbv iota.
    rewrite HV by (auto; try lia; repeat constructor). cbn [on].
    rewrite skip_to_token by auto.
    reflexivity.
  - cbn [map] in *. rewrite join_two in *.
    rewrite !length_app, separator_length, Hlen in Hfuel.
    rewrite <- ?app_assoc, Hone, skip_to_token by auto.
    change (34 =? 34) with true. cbv iota.
    rewrite parse_chars_quote_units. cbn [on].
    rewrite skip_ws_token by reflexivity.
    change (58 =? 58) with true. cbv iota.
    rewrite HV by (auto; try lia; repeat constructor). cbn [on].
    rewrite separator_app, skip_ws_token by reflexivity.
    change (44 =? 44) with true. cbv iota.
    specialize (HM (kv2 :: l) indent (10 :: indent) back rest).
    cbn [map] in HM.
    rewrite HM;
      [reflexivity | discriminate | apply blank_line; assumption
      | assumption | assumption | assumption | lia].
Qed.

Lemma member_text_head (indent : jsstring) (kv : jsstring * value) :
  exists t, member_text indent kv = 34 :: t.
Proof. unfold member_text, QuoteJSONString. eexists. reflexivity. Qed.

Lemma enclose_length (opening closing : N) (stepback indent x : jsstring)
  (l : list jsstring) :
  length (enclose opening closing stepback indent (x :: l))
  = (length (join (separator indent) (x :: l)) + length indent
     + length stepback + 4)%nat.
Proof.
  rewrite enclose_cons. cbn [length]. rewrite !length_app. cbn [length]. lia.
Qed.

Lemma enclose_app (opening closing : N) (stepback indent x rest : jsstring)
  (l : list jsstring) :
  enclose opening closing stepback indent (x :: l) ++ rest
  = opening :: (10 :: indent) ++ join (separator indent) (x :: l)
    ++ (10 :: stepback) ++ closing :: rest.
Proof.
  rewrite enclose_cons. cbn [app]. rewrite <- !app_assoc. cbn [app].
  rewrite <- ?app_assoc. reflexivity.
Qed.

Lemma reads_value_step (fuel : nat) :
  reads_value fuel -> reads_elements fuel -> reads_members fuel ->
  reads_value (S fuel).
Proof.
  intros HV HE HM v indent ws rest Hws Hin Hd Hfuel.
  rewrite parse_value_S.
  destruct v as [s | l | l]; cbn [SerializeJSONProperty] in *.
  - unfold QuoteJSONString. rewrite <- !app_assoc. cbn [app].
    rewrite skip_to_token by auto.
    change (34 =? 34) with true. cbv iota.
    rewrite parse_chars_quote_units. reflexivity.
  - destruct l as [|x l].
    + cbn [map enclose app]. rewrite skip_to_token by auto.
      change (91 =? 34) with false. change (91 =? 91) with true. cbv iota.
      rewrite skip_ws_token by reflexivity. reflexivity.
    + cbn [map] in *. rewrite enclose_length in Hfuel.
      rewrite enclose_app, skip_to_token by auto.
      change (91 =? 34) with false. change (91 =? 91) with true. cbv iota.
      destruct (SerializeJSONProperty_head (indent ++ gap) x)
        as (c & t & Hx & Hc).
      destruct (opener_token Hc) as (C1 & C2 & _).
      pose proof (blank_line (blank_gap Hin)) as Hline.
      assert (Hskip : exists t',
        skip_ws ((10 :: indent ++ gap)
                 ++ join (separator (indent ++ gap))
                      (SerializeJSONProperty (indent ++ gap) x
                       :: map (SerializeJSONProperty (indent ++ gap)) l)
                 ++ (10 :: indent) ++ 93 :: rest)
        = c :: t').
      { rewrite Hx. destruct (join_head (separator (indent ++ gap)) c t
                                (map (SerializeJSONProperty (indent ++ gap)) l))
          as (t' & ->).
        exists (t' ++ (10 :: indent) ++ 93 :: rest).
        exact (@skip_to_token (10 :: indent ++ gap) c _ Hline C1). }
      destruct Hskip as (t' & ->). rewrite C2.
      apply distinct_names_Arr in Hd.
      specialize (HE (x :: l) (indent ++ gap) (10 :: indent ++ gap)
                    (10 :: indent) rest).
      cbn [map] in HE.
      rewrite HE;
        [reflexivity | discriminate | assumption | apply blank_gap; assumption
        | apply blank_line; assumption | assumption | lia].
  - change (map _ l) with (map (member_text (indent ++ gap)) l) in *.
    apply distinct_names_Obj in Hd. destruct Hd as (Hnd & Hd).
    destruct l as [|x l].
    + cbn [map enclose app]. rewrite skip_to_token by auto.
      change (123 =? 34) with false. change (123 =? 91) with false.
      change (123 =? 123) with true. cbv iota.
      rewrite skip_ws_token by reflexivity. reflexivity.
    + cbn [map] in *. rewrite enclose_length in Hfuel.
      rewrite enclose_app, skip_to_token by auto.
      change (123 =? 34) with false. change (123 =? 91) with false.
      change (123 =? 123) with true. cbv iota.
      destruct (member_text_head (indent ++ gap) x) as (t & Hx).
      pose proof (blank_line (blank_gap Hin)) as Hline.
      assert (Hskip : exists t',
        skip_ws ((10 :: indent ++ gap)
                 ++ join (separator (indent ++ gap))
                      (member_text (indent ++ gap) x
                       :: map (member_text (indent ++ gap)) l)
                 ++ (10 :: indent) ++ 125 :: rest)
        = 34 :: t').
      { rewrite Hx. destruct (join_head (separator (indent ++ gap)) 34 t
                                (map (member_text (indent ++ gap)) l))
          as (t' & ->).
        exists (t' ++ (10 :: indent) ++ 125 :: rest).
        exact (@skip_to_token (10 :: indent ++ gap) 34 _ Hline eq_refl). }
      destruct Hskip as (t' & ->).
      change (34 =? 125) with false. cbv iota.
      specialize (HM (x :: l) (indent ++ gap) (10 :: indent ++ gap)
                    (10 :: indent) rest).
      cbn [map] in HM.
      rewrite HM;
        [| discriminate | assumption | apply blank_gap; assumption
         | apply blank_line; assumption | assumption | lia].
      cbn [on]. rewrite properties_of_distinct by assumption. reflexivity.
Qed.

Lemma reads_all (fuel : nat) :
  reads_value fuel /\ reads_elements fuel /\ reads_members fuel.
Proof.
  induction fuel as [|fuel (HV & HE & HM)].
  - split; [|split]; red; intros; lia.
  - split; [|split].
    + apply reads_value_step; assumption.
    + apply reads_elements_step; assumption.
    + apply reads_members_step; assumption.
Qed.

(** Parsing the text of a value gives the value back. *)
Lemma parse_stringify (v : value) :
  distinct_names v -> parse (stringify v) = Some v.
Proof.
  intros Hd. unfold parse, stringify.
  pose proof (proj1 (reads_all (S (length (SerializeJSONProperty [] v))))
                v [] [] [] (Forall_nil _) (Forall_nil _) Hd
                (Nat.lt_succ_diag_r _)) as E.
  cbn [app] in E. rewrite app_nil_r in E. rewrite E. reflexivity.
Qed.

End JSONFacts.

(** ** Export *)

Module JsonExportFacts.

Import JSON JsonExport JSONFacts.

Lemma NoDup_names (l : list jsstring) : keep_first l = l -> NoDup l.
Proof. intros <-. apply keep_first_NoDup. Qed.

Lemma distinct_strings (l : list jsstring) : distinct_names (strings l).
Proof.
  unfold strings. apply distinct_names_Arr. apply Forall_map.
  apply Forall_forall. intros s _. exact I.
Qed.

Lemma distinct_records (A : Type) (f : A -> value) (l : list A) :
  (forall a, distinct_names (f a)) -> distinct_names (Arr (map f l)).
Proof.
  intros Hf. apply distinct_names_Arr, Forall_map, Forall_forall.
  intros a _. apply Hf.
Qed.

Lemma distinct_personal (p : PersonalInfo) : distinct_names (of_personal p).
Proof.
  apply distinct_names_Obj. split.
  - apply NoDup_names. vm_compute. reflexivity.
  - repeat constructor.
Qed.

Lemma distinct_experience (exp : Experience) :
  distinct_names (of_experience exp).
Proof.
  apply distinct_names_Obj. split.
  - apply NoDup_names. vm_compute. reflexivity.
  - repeat (apply Forall_cons; [first [exact I | apply distinct_strings]|]).
    apply Forall_nil.
Qed.

Lemma distinct_education (edu : Education) :
  distinct_names (of_education edu).
Proof.
  apply distinct_names_Obj. split.
  - apply NoDup_names. vm_compute. reflexivity.
  - repeat constructor.
Qed.

Lemma distinct_project (project : Project) :
  distinct_names (of_project project).
Proof.
  apply distinct_names_Obj. split.
  - apply NoDup_names. vm_compute. reflexivity.
  - repeat (apply Forall_cons; [first [exact I | apply distinct_strings]|]).
    apply Forall_nil.
Qed.

Lemma distinct_skill (block : SkillBlock) : distinct_names (of_skill block).
Proof.
  apply distinct_names_Obj. split.
  - apply NoDup_names. vm_compute. reflexivity.
  - repeat constructor.
Qed.

Lemma distinct_document (d : ResumeDocument) :
  distinct_names (of_document d).
Proof.
  apply distinct_names_Obj. split.
  - apply NoDup_names. vm_compute. reflexivity.
  - cbn [of_document].
    apply Forall_cons; [apply distinct_personal|].
    apply Forall_cons;
      [apply distinct_records, distinct_experience|].
    apply Forall_cons;
      [apply distinct_records, distinct_education|].
    apply Forall_cons; [apply distinct_records, distinct_project|].
    apply Forall_cons; [apply distinct_records, distinct_skill|].
    apply Forall_nil.
Qed.

Lemma each_map (B : Type) (f : B -> value) (g : value -> option B)
  (l : list B) :
  (forall b, g (f b) = Some b) -> each g (map f l) = Some l.
Proof.
  intros Hgf. induction l as [|b l IH]; simpl; [reflexivity|].
  rewrite Hgf, IH. reflexivity.
Qed.

Lemma as_strings (l : list jsstring) :
  as_array as_string (strings l) = Some l.
Proof.
  unfold strings, as_array. apply each_map with (f := Str).
  intros s. reflexivity.
Qed.

Lemma to_of_personal (p : PersonalInfo) : to_personal (of_personal p) = Some p.
Proof. destruct p. reflexivity. Qed.

Lemma to_of_experience (exp : Experience) :
  to_experience (of_experience exp) = Some exp.
Proof.
  destruct exp as [a b c d e f g]. unfold to_experience, texts.
  change (get (lit "bullets") (of_experience (mkExperience a b c d e f g)))
    with (Some (strings g)).
  cbn [on]. rewrite as_strings. reflexivity.
Qed.

Lemma to_of_education (edu : Education) :
  to_education (of_education edu) = Some edu.
Proof. destruct edu. reflexivity. Qed.

Lemma to_of_project (project : Project) :
  to_project (of_project project) = Some project.
Proof.
  destruct project as [a b c d e]. unfold to_project, texts.
  change (get (lit "highlights") (of_project (mkProject a b c d e)))
    with (Some (strings e)).
  cbn [on]. rewrite as_strings. reflexivity.
Qed.

Lemma to_of_skill (block : SkillBlock) : to_skill (of_skill block) = Some block.
Proof. destruct block. reflexivity. Qed.

Lemma to_of_document (d : ResumeDocument) :
  to_document (of_document d) = Some d.
Proof.
  destruct d as [p xs es ps ss]. unfold to_document.
  change (get (lit "personal") (of_document (mkResumeDocument p xs es ps ss)))
    with (Some (of_personal p)).
  change (get (lit "experiences")
            (of_document (mkResumeDocument p xs es ps ss)))
    with (Some (Arr (map of_experience xs))).
  change (get (lit "educations")
            (of_document (mkResumeDocument p xs es ps ss)))
    with (Some (Arr (map of_education es))).
  change (get (lit "projects") (of_document (mkResumeDocument p xs es ps ss)))
    with (Some (Arr (map of_project ps))).
  change (get (lit "skills") (of_document (mkResumeDocument p xs es ps ss)))
    with (Some (Arr (map of_skill ss))).
  cbn [on as_array].
  rewrite to_of_personal.
  rewrite (@each_map _ of_experience to_experience xs to_of_experience).
  rewrite (@each_map _ of_education to_education es to_of_education).
  rewrite (@each_map _ of_project to_project ps to_of_project).
  rewrite (@each_map _ of_skill to_skill ss to_of_skill).
  reflexivity.
Qed.

Example stringify_indents_by_two :
  stringify (Arr [of_skill (mkSkillBlock (lit "s1") (lit "Core") [])])
  = lit "[" ++ [10%N]
    ++ lit "  {" ++ [10%N]
    ++ lit "    " ++ QuoteJSONString (lit "id") ++ lit ": "
    ++ QuoteJSONString (lit "s1") ++ lit "," ++ [10%N]
    ++ lit "    " ++ QuoteJSONString (lit "label") ++ lit ": "
    ++ QuoteJSONString (lit "Core") ++ lit "," ++ [10%N]
    ++ lit "    " ++ QuoteJSONString (lit "items") ++ lit ": "
    ++ QuoteJSONString [] ++ [10%N]
    ++ lit "  }" ++ [10%N]
    ++ lit "]".
Proof. vm_compute. reflexivity. Qed.

Example stringify_escapes :
  QuoteJSONString ([9; 34; 92; 1; 55357; 56832; 56832; 233]%N)
  = [34%N] ++ [92%N] ++ lit "t" ++ [92; 34; 92; 92; 92]%N ++ lit "u0001"
    ++ [55357; 56832; 92]%N ++ lit "ude00" ++ [233; 34]%N
  /\ parse (QuoteJSONString ([9; 34; 92; 1; 55357; 56832; 56832; 233]%N))
     = Some (Str ([9; 34; 92; 1; 55357; 56832; 56832; 233]%N)).
Proof. split; vm_compute; reflexivity. Qed.

Lemma stringify_document_prefix (d : ResumeDocument) :
  exists tail,
    stringify (of_document d)
    = lit "{" ++ [10%N]
      ++ lit "  " ++ QuoteJSONString (lit "personal") ++ lit ": {" ++ [10%N]
      ++ lit "    " ++ QuoteJSONString (lit "fullName") ++ lit ": "
      ++ QuoteJSONString (fullName (personal d)) ++ tail.
Proof.
  unfold stringify, of_document, of_personal.
  cbn [SerializeJSONProperty map enclose join fst snd].
  eexists.
  change (lit "{") with [123%N]. change (lit "  ") with [32%N; 32%N].
  change (lit ": {") with [58%N; 32%N; 123%N].
  change (lit "    ") with [32%N; 32%N; 32%N; 32%N].
  change (lit ": ") with [58%N; 32%N].
  unfold gap. cbn [app].
  rewrite <- !app_assoc. cbn [app].
  rewrite <- !app_assoc. cbn [app].
  rewrite <- ?app_assoc. cbn [app].
  rewrite <- ?app_assoc. reflexivity.
Qed.

End JsonExportFacts.

(** C8: in a browser, exporting any document offers a file named
    [resume-builder-export.json] whose text is the serialisation, with a
    gap of two spaces, of the object holding exactly the five properties
    personal, experiences, educations, projects and skills; parsing the
    text gives that object back and reading it property by property gives
    the document back, every field and every list as it was.  Without a
    window the handler does nothing. *)
Theorem export_round_trip (d : ResumeDocument) :
  exportAsJson false d = None
  /\ exists file,
       exportAsJson true d = Some file
       /\ JsonExport.download file = lit "resume-builder-export.json"
       /\ JsonExport.content file
          = JSON.stringify
              (JSON.Obj
                 [ (lit "personal", JsonExport.of_personal (personal d));
                   (lit "experiences",
                    JSON.Arr (map JsonExport.of_experience (experiences d)));
                   (lit "educations",
                    JSON.Arr (map JsonExport.of_education (educations d)));
                   (lit "projects",
                    JSON.Arr (map JsonExport.of_project (projects d)));
                   (lit "skills",
                    JSON.Arr (map JsonExport.of_skill (skills d))) ])
       /\ JSON.gap = [32%N; 32%N]
       /\ (exists tail,
             JsonExport.content file
             = lit "{" ++ [10%N]
               ++ lit "  " ++ JSON.QuoteJSONString (lit "personal")
               ++ lit ": {" ++ [10%N]
               ++ lit "    " ++ JSON.QuoteJSONString (lit "fullName")
               ++ lit ": "
               ++ JSON.QuoteJSONString (fullName (personal d)) ++ tail)
       /\ JSON.parse (JsonExport.content file)
          = Some (JsonExport.of_document d)
       /\ import_text (JsonExport.content file) = Some d.
Proof.
  split; [reflexivity|].
  eexists. split; [reflexivity|]. cbn [JsonExport.download JsonExport.content].
  split; [reflexivity|]. split; [reflexivity|]. split; [reflexivity|].
  split; [apply JsonExportFacts.stringify_document_prefix|].
  assert (P : JSON.parse (JSON.stringify (JsonExport.of_document d))
              = Some (JsonExport.of_document d))
    by apply JSONFacts.parse_stringify, JsonExportFacts.distinct_document.
  split; [exact P|].
  unfold import_text. rewrite P. cbn [on].
  apply JsonExportFacts.to_of_document.
Qed.

Example export_of_the_initial_document :
  on (exportAsJson true
        (initialDocument (lit "r1") (lit "e1") (lit "p1") (lit "s1")))
     (fun file => import_text (JsonExport.content file))
  = Some (initialDocument (lit "r1") (lit "e1") (lit "p1") (lit "s1")).
Proof. vm_compute. reflexivity. Qed.

(* ================================================================== *)
(** * Further properties of the component *)
(* ================================================================== *)

(** ** Blank fields *)

(** X1: a field passes the [trim().length > 0] test of the checklist and
    of the preview exactly when it holds a code unit that is not white
    space. *)
Theorem nonblank_iff_visible (s : jsstring) :
  nonblank s = true <-> exists c, In c s /\ isWhiteSpace c = false.
Proof.
  rewrite nonblank_true_iff. split.
  - intros Hne. pose proof (trim_starts_clean s) as Hc.
    destruct (trim s) as [|c t] eqn:E; [congruence|].
    exists c. split; [|exact Hc].
    apply trim_In. rewrite E. left. reflexivity.
  - intros (c & Hin & Hc) E.
    pose proof (trim_keeps s c Hin Hc) as H. rewrite E in H. exact H.
Qed.

(** ** The bullets text area *)

Lemma split_lines_single (b : jsstring) :
  no_line_feed b -> split_lines b = [b].
Proof.
  unfold no_line_feed. induction b as [|c b IH]; simpl; [reflexivity|].
  intros H. destruct (N.eqb c 10) eqn:E.
  - apply N.eqb_eq in E. tauto.
  - rewrite IH by tauto. reflexivity.
Qed.

Lemma split_lines_first (b rest : jsstring) :
  no_line_feed b -> split_lines (b ++ 10%N :: rest) = b :: split_lines rest.
Proof.
  unfold no_line_feed. induction b as [|c b IH]; simpl; [reflexivity|].
  intros H. destruct (N.eqb c 10) eqn:E.
  - apply N.eqb_eq in E. tauto.
  - rewrite IH by tauto. reflexivity.
Qed.

Lemma split_lines_textareaValue (bs : list jsstring) :
  bs <> [] -> Forall no_line_feed bs ->
  split_lines (textareaValue bs) = bs.
Proof.
  unfold textareaValue. destruct bs as [|b bs]; [congruence|]. intros _.
  revert b. induction bs as [|b2 bs IH]; intros b Hbs.
  - simpl. apply split_lines_single. inversion Hbs; assumption.
  - change (JSON.join [10%N] (b :: b2 :: bs))
      with (b ++ 10%N :: JSON.join [10%N] (b2 :: bs)).
    inversion Hbs as [|? ? Hb Hrest]; subst.
    rewrite split_lines_first by exact Hb. rewrite IH by exact Hrest.
    reflexivity.
Qed.

Lemma split_lines_no_line_feed (s : jsstring) :
  Forall no_line_feed (split_lines s).
Proof.
  induction s as [|c s IH]; simpl.
  - repeat constructor. intros [].
  - destruct (N.eqb c 10) eqn:E.
    + constructor; [intros [] | exact IH].
    + destruct (split_lines s) as [|l ls].
      * constructor; [|constructor]. apply N.eqb_neq in E.
        unfold no_line_feed. simpl. intros [H | []]. congruence.
      * inversion IH as [|? ? Hl Hls]; subst. constructor; [|exact Hls].
        apply N.eqb_neq in E. unfold no_line_feed in *. simpl.
        intros [H | H]; [congruence | exact (Hl H)].
Qed.

Lemma bulletsOfText_no_line_feed (value : jsstring) :
  Forall no_line_feed (bulletsOfText value).
Proof.
  unfold bulletsOfText. apply Forall_forall. intros b Hb.
  apply filter_In in Hb. destruct Hb as (Hb & _).
  apply in_map_iff in Hb. destruct Hb as (line & <- & Hline).
  pose proof (proj1 (Forall_forall _ _) (split_lines_no_line_feed value)
                _ Hline) as Hfree.
  intros Hin. apply Hfree. apply trim_In, Hin.
Qed.

Lemma libraryBullets_no_line_feed : Forall no_line_feed libraryBullets.
Proof.
  apply Forall_forall. intros b Hb Hin.
  assert (C : forallb (fun x => negb (existsb (N.eqb 10) x)) libraryBullets
              = true) by (vm_compute; reflexivity).
  pose proof (proj1 (forallb_forall _ _) C b Hb) as Hnb.
  apply negb_true_iff in Hnb.
  assert (T : existsb (N.eqb 10) b = true).
  { apply existsb_exists. exists 10%N. split; [exact Hin | reflexivity]. }
  congruence.
Qed.

Lemma offered_from_library (p : PersonalInfo) (exp : Experience)
  (k : nat) (suggestion : jsstring) :
  nth_error (slice0 4 (suggestions p exp)) k = Some suggestion ->
  In suggestion libraryBullets.
Proof.
  intros Hk. apply nth_error_In, slice0_In in Hk. unfold suggestions in Hk.
  apply filter_In in Hk. destruct Hk as (Hk & _).
  apply getSuggestedBullets_from_library in Hk. exact Hk.
Qed.

(** A property of bullets that the text area and the suggestion library
    both establish holds of every stored bullet. *)
Section StoredBullets.

Variable P : jsstring -> Prop.
Hypothesis P_text : forall value, Forall P (bulletsOfText value).
Hypothesis P_library : Forall P libraryBullets.

Lemma handleExperienceChange_keeps (id : jsstring) (u : PartialExperience)
  (prev : list Experience) :
  match ux_bullets u with
  | Some bs => Forall P bs
  | None => True
  end ->
  Forall (fun exp => Forall P (bullets exp)) prev ->
  Forall (fun exp => Forall P (bullets exp))
    (handleExperienceChange id u prev).
Proof.
  intros Hu Hprev. unfold handleExperienceChange, handleChange.
  apply Forall_map. revert Hprev. apply Forall_impl. intros exp Hexp.
  destruct (streqb (ident exp) id); [|assumption].
  simpl. destruct (ux_bullets u); assumption.
Qed.

Lemma step_keeps (d d' : ResumeDocument) (ev : Event) :
  Forall (fun exp => Forall P (bullets exp)) (experiences d) ->
  step d ev = Some d' ->
  Forall (fun exp => Forall P (bullets exp)) (experiences d').
Proof.
  intros Hd Hstep.
  destruct ev; simpl in Hstep;
    repeat match type of Hstep with
      | on ?o _ = Some _ =>
          let E := fresh "E" in
          destruct o eqn:E; simpl in Hstep; [|discriminate]
      | (if ?c then _ else _) = Some _ =>
          destruct c; [|discriminate]
      end;
    injection Hstep as <-; simpl; try assumption.
  - apply Forall_app. split; [assumption|]. repeat constructor.
  - apply handleExperienceChange_keeps; [|assumption].
    destruct f; exact I.
  - apply handleExperienceChange_keeps; [|assumption]. apply P_text.
  - apply handleExperienceChange_keeps; [|assumption]. simpl.
    apply Forall_app. split.
    + apply nth_error_In in E.
      exact (proj1 (Forall_forall _ _) Hd _ E).
    + constructor; [|apply Forall_nil].
      apply (proj1 (Forall_forall _ _) P_library).
      eapply offered_from_library; eassumption.
  - unfold removeById. apply Forall_forall. intros exp Hexp.
    apply filter_In in Hexp.
    exact (proj1 (Forall_forall _ _) Hd _ (proj1 Hexp)).
Qed.

Lemma reachable_keeps (d : ResumeDocument) :
  reachable d -> Forall (fun exp => Forall P (bullets exp)) (experiences d).
Proof.
  induction 1 as [i1 i2 i3 i4 | d d' ev _ IH Hstep].
  - repeat constructor.
  - eapply step_keeps; eassumption.
Qed.

End StoredBullets.

Lemma bulletsOfText_textareaValue (bs : list jsstring) :
  Forall tidy bs -> Forall no_line_feed bs ->
  bulletsOfText (textareaValue bs) = bs.
Proof.
  intros Ht Hf. unfold bulletsOfText.
  destruct bs as [|b bs]; [reflexivity|].
  rewrite split_lines_textareaValue by (auto; discriminate).
  clear Hf. induction Ht as [|x l (Hx & Hne) _ IH]; [reflexivity|].
  cbn [map filter]. rewrite Hx.
  destruct x as [|c x]; [congruence|]. cbn [length Nat.ltb Nat.leb].
  f_equal. exact IH.
Qed.

(** X2: in every document the form can arrive at, the text a bullets text
    area shows for a role reads back as the bullets of that role, so an
    edit that leaves the text as shown leaves the bullets as stored. *)
Theorem textarea_shows_stored_bullets (d : ResumeDocument) :
  reachable d ->
  forall exp, In exp (experiences d) ->
    bulletsOfText (textareaValue (bullets exp)) = bullets exp.
Proof.
  intros Hd exp Hexp. apply bulletsOfText_textareaValue.
  - exact (proj1 (Forall_forall _ _)
             (reachable_keeps bulletsOfText_tidy libraryBullets_tidy Hd)
             _ Hexp).
  - exact (proj1 (Forall_forall _ _)
             (reachable_keeps bulletsOfText_no_line_feed
                libraryBullets_no_line_feed Hd)
             _ Hexp).
Qed.

Lemma unique_position (R U : Type) (K : Keyed R U) (l : list R)
  (i j : nat) (r r' : R) :
  NoDup (map ident l) -> nth_error l i = Some r ->
  nth_error l j = Some r' -> ident r' = ident r -> j = i.
Proof.
  intros Hnd Hi Hj Hid.
  apply (proj1 (NoDup_nth_error (map ident l)) Hnd).
  - rewrite length_map. apply nth_error_Some. congruence.
  - rewrite !nth_error_map, Hi, Hj. simpl. congruence.
Qed.

Lemma handleChange_elsewhere (R U : Type) (K : Keyed R U) (updates : U)
  (l : list R) (i : nat) (r : R) :
  NoDup (map ident l) -> nth_error l i = Some r ->
  forall j, j <> i ->
    nth_error (handleChange (ident r) updates l) j = nth_error l j.
Proof.
  intros Hnd Hi j Hji. rewrite handleChange_nth.
  destruct (nth_error l j) as [r'|] eqn:Hj; [|reflexivity]. simpl.
  destruct (streqb (ident r') (ident r)) eqn:E; [|reflexivity].
  apply streqb_true_iff in E. exfalso. apply Hji.
  exact (@unique_position R U K l i j r r' Hnd Hi Hj E).
Qed.

Lemma item_satisfied_experience (d : ResumeDocument) :
  item_satisfied (lit "experience") (checklist d)
  = Some (existsb (fun exp => 3 <=? length (bullets exp)) (experiences d)).
Proof. reflexivity. Qed.

Lemma existsb_nth (A : Type) (p : A -> bool) (l : list A) (i : nat) (a : A) :
  nth_error l i = Some a -> p a = true -> existsb p l = true.
Proof.
  intros Hnth Hp. apply existsb_exists. exists a.
  split; [eapply nth_error_In; eassumption | exact Hp].
Qed.

(** X3: an edit of the bullets text area of the [i]-th role replaces the
    bullets of that role, and of every role carrying the same identifier,
    by the trimmed non-blank lines of the text and keeps their other
    fields; a role with another identifier is kept as it is, so that with
    distinct identifiers only position [i] changes; the number of roles
    and the other four pieces of the document are kept; if the text has
    three lines that are not blank, the experience item of the checklist
    is satisfied afterwards. *)
Theorem EditBullets_effect (d d' : ResumeDocument) (i : nat)
  (value : jsstring) :
  step d (EditBullets i value) = Some d' ->
  exists exp,
    nth_error (experiences d) i = Some exp
    /\ nth_error (experiences d') i
       = Some (mkExperience (x_id exp) (role exp) (company exp)
                 (x_location exp) (x_startDate exp) (x_endDate exp)
                 (bulletsOfText value))
    /\ length (experiences d') = length (experiences d)
    /\ personal d' = personal d /\ educations d' = educations d
    /\ projects d' = projects d /\ skills d' = skills d
    /\ (forall j r, nth_error (experiences d) j = Some r ->
          x_id r <> x_id exp ->
          nth_error (experiences d') j = Some r)
    /\ (forall j r, nth_error (experiences d) j = Some r ->
          x_id r = x_id exp ->
          nth_error (experiences d') j
          = Some (mkExperience (x_id r) (role r) (company r)
                    (x_location r) (x_startDate r) (x_endDate r)
                    (bulletsOfText value)))
    /\ (NoDup (map x_id (experiences d)) ->
        forall j, j <> i ->
          nth_error (experiences d') j = nth_error (experiences d) j)
    /\ (3 <= length (filter nonblank (split_lines value)) ->
        item_satisfied (lit "experience") (checklist d') = Some true).
Proof.
  cbn [step]. destruct (nth_error (experiences d) i) as [exp|] eqn:E;
    [|discriminate].
  cbn [on]. intros H. injection H as <-. exists exp.
  cbn [experiences personal educations projects skills with_experiences].
  assert (T : nth_error
                (handleExperienceChange (x_id exp)
                   (bulletsUpdate (bulletsOfText value)) (experiences d)) i
              = Some (mkExperience (x_id exp) (role exp) (company exp)
                        (x_location exp) (x_startDate exp) (x_endDate exp)
                        (bulletsOfText value))).
  { unfold handleExperienceChange.
    apply (handleChange_target (H := Keyed_Experience)) with (r := exp);
      [exact E | reflexivity]. }
  split; [reflexivity|]. split; [exact T|].
  split; [apply handleChange_length|].
  do 4 (split; [reflexivity|]).
  split.
  { intros j r Hj Hne. unfold handleExperienceChange.
    apply (handleChange_other (H := Keyed_Experience)); assumption. }
  split.
  { intros j r Hj He. unfold handleExperienceChange.
    apply (handleChange_target (H := Keyed_Experience)) with (r := r);
      assumption. }
  split.
  { intros Hnd j Hji. unfold handleExperienceChange.
    exact (@handleChange_elsewhere _ _ Keyed_Experience
             (bulletsUpdate (bulletsOfText value)) (experiences d) i exp
             Hnd E j Hji). }
  intros Hthree. rewrite item_satisfied_experience. f_equal.
  cbn [experiences with_experiences].
  apply (existsb_nth _ _ i T). cbn [bullets].
  rewrite bulletsOfText_count. apply Nat.leb_le. exact Hthree.
Qed.

Lemma EditBullets_effect_witness :
  let d :=
    with_experiences
      (initialDocument (lit "r1") (lit "e1") (lit "p1") (lit "s1"))
      [createExperience (lit "r1");
       mkExperience (lit "r2") (lit "Engineer") [] [] [] [] [lit "kept"]] in
  exists d',
    step d (EditBullets 0 (lit " a" ++ [10; 32; 10]%N ++ lit "b"
                           ++ [10]%N ++ lit "c "))
    = Some d'
    /\ nth_error (experiences d') 1 = nth_error (experiences d) 1
    /\ item_satisfied (lit "experience") (checklist d') = Some true
    /\ map bullets (experiences d')
       = [[lit "a"; lit "b"; lit "c"]; [lit "kept"]].
Proof.
  cbv zeta. eexists.
  split; [vm_compute; reflexivity|].
  match goal with
  | |- context [nth_error (experiences ?d1) 1 = _] =>
      destruct (@EditBullets_effect
                  (with_experiences
                     (initialDocument (lit "r1") (lit "e1") (lit "p1")
                        (lit "s1"))
                     [createExperience (lit "r1");
                      mkExperience (lit "r2") (lit "Engineer") [] [] [] []
                        [lit "kept"]])
                  d1 0
                  (lit " a" ++ [10; 32; 10]%N ++ lit "b" ++ [10]%N
                   ++ lit "c ")
                  eq_refl)
        as (exp & _ & _ & _ & _ & _ & _ & _ & _ & _ & Helse & Hsat)
  end.
  split.
  - apply Helse; [|discriminate].
    apply JsonExportFacts.NoDup_names. vm_compute. reflexivity.
  - split; [apply Hsat; vm_compute; apply le_n | vm_compute; reflexivity].
Defined.

(** ** Suggestions offered for a role *)

Lemma getSuggestedBullets_NoDup (role0 summary0 : jsstring) :
  NoDup (getSuggestedBullets role0 summary0).
Proof.
  unfold getSuggestedBullets. rewrite Set_of_keep_first.
  apply keep_first_NoDup.
Qed.

(** X4: a suggestion offered for a role is a bullet of the library that
    the role does not hold yet, none is offered twice, and at most four are
    shown. *)
Theorem suggestions_sound (p : PersonalInfo) (exp : Experience) :
  (forall b, In b (suggestions p exp) ->
     ~ In b (bullets exp) /\ In b libraryBullets /\ tidy b)
  /\ NoDup (suggestions p exp)
  /\ NoDup (slice0 4 (suggestions p exp))
  /\ length (slice0 4 (suggestions p exp)) <= 4
  /\ (forall b, In b (slice0 4 (suggestions p exp)) ->
        In b (suggestions p exp)).
Proof.
  split; [|split; [|split; [|split]]].
  - intros b Hb. unfold suggestions in Hb. apply filter_In in Hb.
    destruct Hb as (Hg & Hn). apply negb_true_iff in Hn.
    apply getSuggestedBullets_from_library in Hg.
    split; [|split; [exact Hg|]].
    + intros Hin. apply includes_true_iff in Hin. congruence.
    + exact (proj1 (Forall_forall _ _) libraryBullets_tidy _ Hg).
  - apply NoDup_filter, getSuggestedBullets_NoDup.
  - unfold slice0.
    assert (N : NoDup (suggestions p exp))
      by apply NoDup_filter, getSuggestedBullets_NoDup.
    rewrite <- (firstn_skipn 4 (suggestions p exp)) in N.
    apply NoDup_app_remove_r in N. exact N.
  - unfold slice0. apply firstn_le_length.
  - intros b. apply slice0_In.
Qed.

Lemma suggestions_count (p : PersonalInfo) (exp : Experience) :
  length (getSuggestedBullets (role exp ++ [32%N] ++ company exp) (summary p))
  <= length (suggestions p exp) + length (bullets exp).
Proof.
  unfold suggestions.
  set (g := getSuggestedBullets _ _).
  rewrite <- (filter_length (fun b => negb (includes (bullets exp) b)) g).
  apply Nat.add_le_mono_l.
  apply NoDup_incl_length.
  - apply NoDup_filter. unfold g. apply getSuggestedBullets_NoDup.
  - intros b Hb. apply filter_In in Hb. destruct Hb as (_ & Hb).
    rewrite negb_involutive in Hb. apply includes_true_iff, Hb.
Qed.

Lemma getSuggestedBullets_at_least_three (role0 summary0 : jsstring) :
  3 <= length (getSuggestedBullets role0 summary0).
Proof.
  change 3 with (length genericBullets).
  apply NoDup_incl_length; [apply genericBullets_NoDup|].
  intros b Hb. unfold getSuggestedBullets. apply Set_of_In.
  apply in_or_app. right. exact Hb.
Qed.

Lemma some_suggestion_shown (p : PersonalInfo) (exp : Experience) :
  length (bullets exp) < 3 ->
  slice0 4 (suggestions p exp) <> []
  /\ 3 - length (bullets exp) <= length (suggestions p exp).
Proof.
  intros Hfew.
  pose proof (suggestions_count p exp) as Hc.
  pose proof (getSuggestedBullets_at_least_three
                (role exp ++ [32%N] ++ company exp) (summary p)) as H3.
  split; [|lia].
  intros E. unfold slice0 in E.
  destruct (suggestions p exp) as [|s l] eqn:S;
    [rewrite ?S in Hc; cbn [length Nat.add] in Hc; lia|].
  discriminate.
Qed.

(** X5: a role that holds fewer than three bullets is always offered at
    least one suggestion; the suggestions not yet held number at least
    three minus the bullets of the role. *)
Theorem suggestions_available (p : PersonalInfo) (exp : Experience) :
  length (bullets exp) < 3 ->
  slice0 4 (suggestions p exp) <> []
  /\ 3 - length (bullets exp) <= length (suggestions p exp).
Proof. apply some_suggestion_shown. Qed.

Lemma suggestions_available_witness :
  slice0 4 (suggestions basePersonalInfo (createExperience (lit "r1"))) <> [].
Proof.
  apply (suggestions_available basePersonalInfo (createExperience (lit "r1"))).
  simpl. lia.
Defined.

(** X6: a click on the [k]-th suggestion shown for the [i]-th role gives
    that role, and every role carrying the same identifier, the bullets of
    the [i]-th role followed by that suggestion, which the [i]-th role did
    not hold, and keeps their other fields; a role with another identifier
    is kept as it is, so that with distinct identifiers only position [i]
    changes; the number of roles and the other four pieces of the document
    are kept, and the suggestion is not offered for that role again. *)
Theorem AcceptSuggestion_effect (d d' : ResumeDocument) (i k : nat) :
  step d (AcceptSuggestion i k) = Some d' ->
  exists exp suggestion,
    nth_error (experiences d) i = Some exp
    /\ nth_error (slice0 4 (suggestions (personal d) exp)) k
       = Some suggestion
    /\ ~ In suggestion (bullets exp)
    /\ nth_error (experiences d') i
       = Some (mkExperience (x_id exp) (role exp) (company exp)
                 (x_location exp) (x_startDate exp) (x_endDate exp)
                 (bullets exp ++ [suggestion]))
    /\ length (experiences d') = length (experiences d)
    /\ personal d' = personal d /\ educations d' = educations d
    /\ projects d' = projects d /\ skills d' = skills d
    /\ (forall j r, nth_error (experiences d) j = Some r ->
          x_id r <> x_id exp ->
          nth_error (experiences d') j = Some r)
    /\ (forall j r, nth_error (experiences d) j = Some r ->
          x_id r = x_id exp ->
          nth_error (experiences d') j
          = Some (mkExperience (x_id r) (role r) (company r)
                    (x_location r) (x_startDate r) (x_endDate r)
                    (bullets exp ++ [suggestion])))
    /\ (NoDup (map x_id (experiences d)) ->
        forall j, j <> i ->
          nth_error (experiences d') j = nth_error (experiences d) j)
    /\ ~ In suggestion
         (suggestions (personal d')
            (mkExperience (x_id exp) (role exp) (company exp)
               (x_location exp) (x_startDate exp) (x_endDate exp)
               (bullets exp ++ [suggestion]))).
Proof.
  cbn [step]. destruct (nth_error (experiences d) i) as [exp|] eqn:E;
    [|discriminate].
  cbn [on].
  destruct (nth_error (slice0 4 (suggestions (personal d) exp)) k)
    as [s|] eqn:K; [|discriminate].
  cbn [on]. intros H. injection H as <-. exists exp, s.
  cbn [experiences personal educations projects skills with_experiences].
  split; [reflexivity|]. split; [exact K|]. split.
  { apply nth_error_In, slice0_In in K. unfold suggestions in K.
    apply filter_In in K. destruct K as (_ & K).
    apply negb_true_iff in K. intros Hin.
    apply includes_true_iff in Hin. congruence. }
  split.
  { unfold handleExperienceChange.
    apply (handleChange_target (H := Keyed_Experience)) with (r := exp);
      [exact E | reflexivity]. }
  split; [apply handleChange_length|].
  do 4 (split; [reflexivity|]).
  split.
  { intros j r Hj Hne. unfold handleExperienceChange.
    apply (handleChange_other (H := Keyed_Experience)); assumption. }
  split.
  { intros j r Hj He. unfold handleExperienceChange.
    apply (handleChange_target (H := Keyed_Experience)) with (r := r);
      assumption. }
  split.
  { intros Hnd j Hji. unfold handleExperienceChange.
    exact (@handleChange_elsewhere _ _ Keyed_Experience
             (bulletsUpdate (bullets exp ++ [s])) (experiences d) i exp
             Hnd E j Hji). }
  unfold suggestions. intros Hin. apply filter_In in Hin.
  destruct Hin as (_ & Hin). apply negb_true_iff in Hin.
  cbn [bullets] in Hin. rewrite includes_app in Hin.
  apply orb_false_iff in Hin. destruct Hin as (_ & Hin).
  unfold includes in Hin. simpl in Hin. rewrite streqb_refl in Hin.
  discriminate.
Qed.

Lemma AcceptSuggestion_effect_witness :
  let d :=
    with_experiences
      (initialDocument (lit "r1") (lit "e1") (lit "p1") (lit "s1"))
      [createExperience (lit "r1");
       mkExperience (lit "r2") (lit "Engineer") [] [] [] [] [lit "kept"]] in
  exists d',
    step d (AcceptSuggestion 0 1) = Some d'
    /\ nth_error (experiences d') 1 = nth_error (experiences d) 1
    /\ map bullets (experiences d')
       = [[nth 1 genericBullets []]; [lit "kept"]].
Proof.
  cbv zeta. eexists.
  split; [vm_compute; reflexivity|].
  match goal with
  | |- context [nth_error (experiences ?d1) 1 = _] =>
      destruct (@AcceptSuggestion_effect
                  (with_experiences
                     (initialDocument (lit "r1") (lit "e1") (lit "p1")
                        (lit "s1"))
                     [createExperience (lit "r1");
                      mkExperience (lit "r2") (lit "Engineer") [] [] [] []
                        [lit "kept"]])
                  d1 0 1 eq_refl)
        as (exp & s & _ & _ & _ & _ & _ & _ & _ & _ & _ & _ & _ & Helse
            & _)
  end.
  split.
  - apply Helse; [|discriminate].
    apply JsonExportFacts.NoDup_names. vm_compute. reflexivity.
  - vm_compute. reflexivity.
Defined.

(** ** Lists with unique identifiers *)

Section KeyedLists.

Context {R U : Type} `{Keyed R U}.

Lemma removeById_absent (id : jsstring) (l : list R) :
  ~ In id (map ident l) -> removeById id l = l.
Proof.
  unfold removeById. induction l as [|a l IH]; simpl; [reflexivity|].
  intros Hn. destruct (streqb (ident a) id) eqn:E.
  - apply streqb_true_iff in E. tauto.
  - simpl. rewrite IH by tauto. reflexivity.
Qed.

Lemma handleChange_exact (updates : U) (l : list R) :
  NoDup (map ident l) ->
  forall i r, nth_error l i = Some r ->
    handleChange (ident r) updates l
    = firstn i l ++ spread r updates :: skipn (S i) l.
Proof.
  induction l as [|a l IH]; intros Hnd [|i] r Hnth; simpl in Hnth;
    try discriminate.
  - injection Hnth as ->. inversion Hnd as [|? ? Hnotin _]; subst.
    unfold handleChange. simpl. rewrite streqb_refl. f_equal.
    apply handleChange_absent. intros r' Hr' E. apply Hnotin.
    rewrite <- E. apply in_map, Hr'.
  - inversion Hnd as [|? ? Hnotin Hnd']; subst.
    unfold handleChange. simpl.
    destruct (streqb (ident a) (ident r)) eqn:E.
    + apply streqb_true_iff in E. exfalso. apply Hnotin. rewrite E.
      apply in_map. eapply nth_error_In; eassumption.
    + f_equal. apply IH; assumption.
Qed.

Lemma removeById_exact (l : list R) :
  NoDup (map ident l) ->
  forall i r, nth_error l i = Some r ->
    removeById (ident r) l = firstn i l ++ skipn (S i) l.
Proof.
  induction l as [|a l IH]; intros Hnd [|i] r Hnth; simpl in Hnth;
    try discriminate.
  - injection Hnth as ->. inversion Hnd as [|? ? Hnotin _]; subst.
    unfold removeById. simpl. rewrite streqb_refl. simpl.
    apply removeById_absent, Hnotin.
  - inversion Hnd as [|? ? Hnotin Hnd']; subst.
    unfold removeById. simpl.
    destruct (streqb (ident a) (ident r)) eqn:E.
    + apply streqb_true_iff in E. exfalso. apply Hnotin. rewrite E.
      apply in_map. eapply nth_error_In; eassumption.
    + simpl. f_equal. apply IH; assumption.
Qed.

Lemma handleChange_twice (id : jsstring) (updates : U) (l : list R) :
  (forall r, spread (spread r updates) updates = spread r updates) ->
  handleChange id updates (handleChange id updates l)
  = handleChange id updates l.
Proof.
  intros Hidem. unfold handleChange. rewrite map_map. apply map_ext.
  intros r. destruct (streqb (ident r) id) eqn:E.
  - rewrite Hidem. destruct (streqb (ident (spread r updates)) id);
      reflexivity.
  - rewrite E. reflexivity.
Qed.

Lemma NoDup_idents_filter (p : R -> bool) (l : list R) :
  NoDup (map ident l) -> NoDup (map ident (filter p l)).
Proof.
  induction l as [|a l IH]; simpl; intros Hnd; [constructor|].
  inversion Hnd as [|? ? Hnotin Hnd']; subst.
  destruct (p a); simpl; [|apply IH, Hnd'].
  constructor; [|apply IH, Hnd'].
  intros Hin. apply Hnotin. apply in_map_iff in Hin.
  destruct Hin as (x & Hx & Hin). apply filter_In in Hin.
  apply in_map_iff. exists x. tauto.
Qed.

Lemma removeById_leaves_one (id : jsstring) (l : list R) :
  NoDup (map ident l) -> removable l = true -> removeById id l <> [].
Proof.
  unfold removable. intros Hnd Hlen. apply Nat.ltb_lt in Hlen.
  destruct l as [|a [|b l]]; simpl in Hlen; try lia.
  inversion Hnd as [|? ? Hnotin _]; subst.
  unfold removeById. simpl.
  destruct (streqb (ident a) id) eqn:Ea; simpl; [|discriminate].
  destruct (streqb (ident b) id) eqn:Eb; simpl; [|discriminate].
  apply streqb_true_iff in Ea, Eb. exfalso. apply Hnotin.
  left. congruence.
Qed.

Lemma NoDup_idents_add (l : list R) (x : R) :
  NoDup (map ident l) -> ~ In (ident x) (map ident l) ->
  NoDup (map ident (l ++ [x])).
Proof.
  intros Hnd Hfresh. rewrite map_app. apply NoDup_app.
  - exact Hnd.
  - repeat constructor. intros [].
  - intros a Ha [<- | []]. exact (Hfresh Ha).
Qed.

End KeyedLists.

Lemma spread_experience_twice (exp : Experience) (u : PartialExperience) :
  spread (spread exp u) u = spread exp u.
Proof. destruct u as [[] [] [] [] [] [] []]; reflexivity. Qed.

Lemma spread_education_twice (edu : Education) (u : PartialEducation) :
  spread (spread edu u) u = spread edu u.
Proof. destruct u as [[] [] [] [] [] [] []]; reflexivity. Qed.

Lemma spread_project_twice (project : Project) (u : PartialProject) :
  spread (spread project u) u = spread project u.
Proof. destruct u as [[] [] [] [] []]; reflexivity. Qed.

Lemma spread_skill_twice (block : SkillBlock) (u : PartialSkillBlock) :
  spread (spread block u) u = spread block u.
Proof. destruct u as [[] [] []]; reflexivity. Qed.

(** X7: each of the four update handlers is idempotent: running it a
    second time with the same identifier and the same update changes
    nothing, whatever the update, even one that renames the record. *)
Theorem handleChange_idempotent :
  (forall id u l,
      handleExperienceChange id u (handleExperienceChange id u l)
      = handleExperienceChange id u l)
  /\ (forall id u l,
        handleEducationChange id u (handleEducationChange id u l)
        = handleEducationChange id u l)
  /\ (forall id u l,
        handleProjectChange id u (handleProjectChange id u l)
        = handleProjectChange id u l)
  /\ (forall id u l,
        handleSkillChange id u (handleSkillChange id u l)
        = handleSkillChange id u l).
Proof.
  split; [|split; [|split]]; intros id u l.
  - apply (handleChange_twice (H := Keyed_Experience)).
    intros r. apply spread_experience_twice.
  - apply (handleChange_twice (H := Keyed_Education)).
    intros r. apply spread_education_twice.
  - apply (handleChange_twice (H := Keyed_Project)).
    intros r. apply spread_project_twice.
  - apply (handleChange_twice (H := Keyed_SkillBlock)).
    intros r. apply spread_skill_twice.
Qed.

(** X8: in a list whose identifiers are distinct, for any of the four
    record types, the update keyed by the identifier of the record at
    position [i] rewrites that position and no other, and the removal keyed
    by it deletes that position and no other. *)
Theorem keyed_by_unique_identifier (R U : Type) (K : Keyed R U)
  (updates : U) (l : list R) (i : nat) (r : R) :
  NoDup (map ident l) -> nth_error l i = Some r ->
  handleChange (ident r) updates l
  = firstn i l ++ spread r updates :: skipn (S i) l
  /\ removeById (ident r) l = firstn i l ++ skipn (S i) l
  /\ S (length (removeById (ident r) l)) = length l.
Proof.
  intros Hnd Hnth.
  split; [apply handleChange_exact; assumption|].
  assert (E : removeById (ident r) l = firstn i l ++ skipn (S i) l)
    by (apply removeById_exact; assumption).
  split; [exact E|]. rewrite E.
  rewrite <- (firstn_skipn_middle i l Hnth) at 3.
  rewrite !length_app. simpl. lia.
Qed.

Lemma keyed_by_unique_identifier_witness :
  removeById (lit "r2")
    [createExperience (lit "r1"); createExperience (lit "r2");
     createExperience (lit "r3")]
  = [createExperience (lit "r1"); createExperience (lit "r3")].
Proof.
  assert (Hnd : NoDup (map ident
                         [createExperience (lit "r1");
                          createExperience (lit "r2");
                          createExperience (lit "r3")]))
    by (apply JsonExportFacts.NoDup_names; vm_compute; reflexivity).
  exact (proj1 (proj2 (@keyed_by_unique_identifier Experience
                         PartialExperience _ noExperienceUpdates
                         [createExperience (lit "r1");
                          createExperience (lit "r2");
                          createExperience (lit "r3")]
                         1 (createExperience (lit "r2")) Hnd eq_refl))).
Defined.

(** ** Identifiers and list sizes along a run of the form *)

Section KeptLists.

Context {R U : Type} `{Keyed R U}.

Lemma kept_add (l : list R) (x : R) :
  NoDup (map ident l) /\ l <> [] -> ~ In (ident x) (map ident l) ->
  NoDup (map ident (l ++ [x])) /\ l ++ [x] <> [].
Proof.
  intros (Hnd & Hne) Hfresh. split; [apply NoDup_idents_add; assumption|].
  destruct l; discriminate.
Qed.

Lemma kept_change (id : jsstring) (updates : U) (l : list R) :
  (forall r, ident (spread r updates) = ident r) ->
  NoDup (map ident l) /\ l <> [] ->
  NoDup (map ident (handleChange id updates l))
  /\ handleChange id updates l <> [].
Proof.
  intros Hkeep (Hnd & Hne). split.
  - rewrite handleChange_idents by exact Hkeep. exact Hnd.
  - destruct l; [congruence | discriminate].
Qed.

Lemma kept_remove (id : jsstring) (l : list R) :
  removable l = true ->
  NoDup (map ident l) /\ l <> [] ->
  NoDup (map ident (removeById id l)) /\ removeById id l <> [].
Proof.
  intros Hrem (Hnd & _). split.
  - apply NoDup_idents_filter, Hnd.
  - apply removeById_leaves_one; assumption.
Qed.

End KeptLists.

Lemma step_keeps_lists (d d' : ResumeDocument) (ev : Event) :
  fresh_for d ev -> step d ev = Some d' ->
  (NoDup (map x_id (experiences d)) /\ experiences d <> [])
  /\ (NoDup (map e_id (educations d)) /\ educations d <> [])
  /\ (NoDup (map j_id (projects d)) /\ projects d <> [])
  /\ (NoDup (map s_id (skills d)) /\ skills d <> []) ->
  (NoDup (map x_id (experiences d')) /\ experiences d' <> [])
  /\ (NoDup (map e_id (educations d')) /\ educations d' <> [])
  /\ (NoDup (map j_id (projects d')) /\ projects d' <> [])
  /\ (NoDup (map s_id (skills d')) /\ skills d' <> []).
Proof.
  intros Hfresh Hstep (Hx & He & Hj & Hs).
  destruct ev; cbn [step] in Hstep;
    repeat match type of Hstep with
      | on ?o _ = Some _ =>
          let E := fresh "E" in
          destruct o eqn:E; cbn [on] in Hstep; [|discriminate]
      | (if ?c then _ else _) = Some _ =>
          let C := fresh "C" in
          destruct c eqn:C; [|discriminate]
      end;
    injection Hstep as <-;
    cbn [experiences educations projects skills with_personal
           with_experiences with_educations with_projects with_skills];
    repeat split; try tauto;
    cbn [fresh_for] in Hfresh.
  all: try (apply (kept_add (H := Keyed_Experience)); assumption).
  all: try (apply (kept_add (H := Keyed_Education)); assumption).
  all: try (apply (kept_add (H := Keyed_Project)); assumption).
  all: try (apply (kept_add (H := Keyed_SkillBlock)); assumption).
  all: try (apply (kept_remove (H := Keyed_Experience)); assumption).
  all: try (apply (kept_remove (H := Keyed_Education)); assumption).
  all: try (apply (kept_remove (H := Keyed_Project)); assumption).
  all: try (apply (kept_remove (H := Keyed_SkillBlock)); assumption).
  all: try (apply (kept_change (H := Keyed_Experience));
            [intros r; try destruct f; reflexivity | assumption]).
  all: try (apply (kept_change (H := Keyed_Education));
            [intros r; try destruct f; reflexivity | assumption]).
  all: try (apply (kept_change (H := Keyed_Project));
            [intros r; try destruct f; reflexivity | assumption]).
  all: try (apply (kept_change (H := Keyed_SkillBlock));
            [intros r; try destruct f; reflexivity | assumption]).
Qed.

(** X9: as long as no add button draws an identifier already used in its
    list, identifiers stay distinct inside each of the four lists and none
    of the four lists ever becomes empty. *)
Theorem lists_stay_keyed (d : ResumeDocument) :
  reachable_fresh d ->
  ids_distinct d
  /\ experiences d <> [] /\ educations d <> [] /\ projects d <> []
  /\ skills d <> [].
Proof.
  intros Hd.
  assert (K : (NoDup (map x_id (experiences d)) /\ experiences d <> [])
              /\ (NoDup (map e_id (educations d)) /\ educations d <> [])
              /\ (NoDup (map j_id (projects d)) /\ projects d <> [])
              /\ (NoDup (map s_id (skills d)) /\ skills d <> [])).
  { induction Hd as [i1 i2 i3 i4 | d d' ev _ IH Hfresh Hstep].
    - simpl. repeat split; try discriminate;
        (constructor; [intros [] | constructor]).
    - eapply step_keeps_lists; eassumption. }
  unfold ids_distinct. tauto.
Qed.

Lemma lists_stay_keyed_witness :
  exists d,
    on (step (initialDocument (lit "r1") (lit "e1") (lit "p1") (lit "s1"))
          (AddRole (lit "r2")))
      (fun d1 => step d1 (RemoveRole 0))
    = Some d
    /\ map x_id (experiences d) = [lit "r2"]
    /\ experiences d <> [].
Proof.
  exists (with_experiences
            (initialDocument (lit "r1") (lit "e1") (lit "p1") (lit "s1"))
            [createExperience (lit "r2")]).
  split; [vm_compute; reflexivity|]. split; [reflexivity|].
  apply lists_stay_keyed.
  apply (@fresh_step
           (with_experiences
              (initialDocument (lit "r1") (lit "e1") (lit "p1") (lit "s1"))
              [createExperience (lit "r1"); createExperience (lit "r2")])
           _ (RemoveRole 0)).
  - apply (@fresh_step
             (initialDocument (lit "r1") (lit "e1") (lit "p1") (lit "s1"))
             _ (AddRole (lit "r2"))).
    + apply fresh_initial.
    + simpl. intros [E | []]. discriminate.
    + reflexivity.
  - exact I.
  - vm_compute. reflexivity.
Defined.

(** ** What the checklist does not see *)

Lemma existsb_handleChange (R U : Type) (K : Keyed R U) (p : R -> bool)
  (id : jsstring) (updates : U) (l : list R) :
  (forall r, p (spread r updates) = p r) ->
  existsb p (handleChange id updates l) = existsb p l.
Proof.
  intros Hp. unfold handleChange.
  induction l as [|a l IH]; simpl; [reflexivity|].
  rewrite IH. destruct (streqb (ident a) id); [rewrite Hp|]; reflexivity.
Qed.

Lemma existsb_add (A : Type) (p : A -> bool) (l : list A) (x : A) :
  p x = false -> existsb p (l ++ [x]) = existsb p l.
Proof.
  intros Hx. rewrite existsb_app. simpl. rewrite Hx.
  rewrite !orb_false_r. reflexivity.
Qed.

(** X10: the checklist is the same before and after adding an empty record
    to any list, editing a project in any way or removing one, editing the
    phone, website or LinkedIn field, editing a text field of a role (role,
    company, location, dates), editing the school, dates or location of an
    education entry, or editing the label of a skill block. *)
Theorem checklist_unchanged (d d' : ResumeDocument) (ev : Event) :
  checklist_blind ev = true -> step d ev = Some d' ->
  checklist d' = checklist d.
Proof.
  intros Hblind Hstep.
  destruct ev; try destruct f; try discriminate Hblind;
    cbn [step] in Hstep;
    repeat match type of Hstep with
      | on ?o _ = Some _ =>
          let E := fresh "E" in
          destruct o eqn:E; cbn [on] in Hstep; [|discriminate]
      | (if ?c then _ else _) = Some _ =>
          let C := fresh "C" in
          destruct c eqn:C; [|discriminate]
      end;
    injection Hstep as <-;
    unfold checklist;
    cbn [experiences educations projects skills personal with_personal
           with_experiences with_educations with_projects with_skills
           setPersonal fullName headline email p_location summary];
    try reflexivity.
  all: try (rewrite existsb_add by reflexivity; reflexivity).
  all: try (unfold handleExperienceChange;
            rewrite (@existsb_handleChange _ _ Keyed_Experience)
              by (intros r; reflexivity);
            reflexivity).
  all: try (unfold handleEducationChange;
            rewrite (@existsb_handleChange _ _ Keyed_Education)
              by (intros r; reflexivity);
            reflexivity).
  all: try (unfold handleSkillChange;
            rewrite (@existsb_handleChange _ _ Keyed_SkillBlock)
              by (intros r; reflexivity);
            reflexivity).
Qed.

Lemma checklist_unchanged_witness :
  checklist
    (with_experiences
       (initialDocument (lit "r1") (lit "e1") (lit "p1") (lit "s1"))
       [mkExperience (lit "r1") (lit "Engineer") [] [] [] [] []])
  = checklist (initialDocument (lit "r1") (lit "e1") (lit "p1") (lit "s1")).
Proof.
  apply (@checklist_unchanged
           (initialDocument (lit "r1") (lit "e1") (lit "p1") (lit "s1")) _
           (EditExperience 0 Role (lit "Engineer"))).
  - reflexivity.
  - vm_compute. reflexivity.
Defined.

(** ** Accepting a suggestion and the checklist *)

Lemma existsb_middle (A : Type) (p : A -> bool) (l1 l2 : list A) (a b : A) :
  (p a = true -> p b = true) ->
  existsb p (l1 ++ a :: l2) = true -> existsb p (l1 ++ b :: l2) = true.
Proof.
  intros Hab. rewrite !existsb_app. simpl. rewrite !orb_true_iff.
  intuition.
Qed.

(** X11: when the identifiers of the roles are distinct, a click on a
    suggestion never turns a satisfied checklist item into an unsatisfied
    one. *)
Theorem AcceptSuggestion_keeps_flags (d d' : ResumeDocument) (i k : nat) :
  NoDup (map x_id (experiences d)) ->
  step d (AcceptSuggestion i k) = Some d' ->
  no_flag_lost (checklist d) (checklist d').
Proof.
  intros Hnd. cbn [step].
  destruct (nth_error (experiences d) i) as [exp|] eqn:E; [|discriminate].
  cbn [on].
  destruct (nth_error (slice0 4 (suggestions (personal d) exp)) k)
    as [s|] eqn:K; [|discriminate].
  cbn [on]. intros H. injection H as <-.
  unfold no_flag_lost, checklist.
  cbn [experiences educations skills personal with_experiences].
  repeat (apply Forall2_cons; [cbn [satisfied]; try tauto|]);
    [|apply Forall2_nil].
  unfold handleExperienceChange.
  pose proof (@handleChange_exact _ _ Keyed_Experience
                (bulletsUpdate (bullets exp ++ [s])) (experiences d) Hnd
                i exp E) as X.
  cbn [ident Keyed_Experience] in X. rewrite X. clear X.
  rewrite <- (firstn_skipn_middle i (experiences d) E) at 1.
  apply existsb_middle. cbn [spread Keyed_Experience bullets bulletsUpdate
                              ux_bullets over].
  rewrite !Nat.leb_le, length_app. simpl. lia.
Qed.

Lemma AcceptSuggestion_keeps_flags_witness :
  let d :=
    mkResumeDocument adaPersonal
      [createExperience (lit "r1");
       mkExperience (lit "r2") [] [] [] [] [] [lit "a"; lit "b"; lit "c"]]
      [createEducation (lit "e1")] [createProject (lit "p1")]
      [mkSkillBlock (lit "s1") (lit "Core") []] in
  exists d',
    step d (AcceptSuggestion 0 0) = Some d'
    /\ NoDup (map x_id (experiences d))
    /\ map satisfied (checklist d) = [true; false; true; false; false]
    /\ no_flag_lost (checklist d) (checklist d')
    /\ map satisfied (checklist d') = [true; false; true; false; false]
    /\ map (fun exp => length (bullets exp)) (experiences d') = [1; 3].
Proof.
  cbv zeta. eexists.
  split; [vm_compute; reflexivity|].
  assert (Hnd : NoDup (map x_id
                         [createExperience (lit "r1");
                          mkExperience (lit "r2") [] [] [] [] []
                            [lit "a"; lit "b"; lit "c"]]))
    by (apply JsonExportFacts.NoDup_names; vm_compute; reflexivity).
  split; [exact Hnd|].
  split; [vm_compute; reflexivity|].
  split.
  - apply (@AcceptSuggestion_keeps_flags
             (mkResumeDocument adaPersonal
                [createExperience (lit "r1");
                 mkExperience (lit "r2") [] [] [] [] []
                   [lit "a"; lit "b"; lit "c"]]
                [createEducation (lit "e1")] [createProject (lit "p1")]
                [mkSkillBlock (lit "s1") (lit "Core") []])
             _ 0 0).
    + exact Hnd.
    + vm_compute. reflexivity.
  - split; vm_compute; reflexivity.
Defined.

Example AcceptSuggestion_with_repeated_identifier :
  let d :=
    with_experiences
      (initialDocument (lit "r1") (lit "e1") (lit "p1") (lit "s1"))
      [createExperience (lit "r1");
       mkExperience (lit "r1") [] [] [] [] [] [lit "a"; lit "b"; lit "c"]] in
  item_satisfied (lit "experience") (checklist d) = Some true
  /\ on (step d (AcceptSuggestion 0 0))
        (fun d' => item_satisfied (lit "experience") (checklist d'))
     = Some false.
Proof. split; vm_compute; reflexivity. Qed.

(** ** Matching of the suggestion engine *)

Lemma canonicalize_idem (c : N) : canonicalize (canonicalize c) = canonicalize c.
Proof.
  unfold canonicalize.
  destruct (N.leb 97 c && N.leb c 122)%bool eqn:E; [|rewrite E; reflexivity].
  apply andb_true_iff in E. destruct E as (E1 & E2).
  apply N.leb_le in E1, E2.
  replace (N.leb 97 (c - 32) && N.leb (c - 32) 122)%bool with false;
    [reflexivity|].
  symmetry. apply andb_false_iff. left. apply N.leb_gt. lia.
Qed.

Lemma isWhiteSpace_canonicalize (c : N) :
  isWhiteSpace (canonicalize c) = isWhiteSpace c.
Proof.
  unfold canonicalize.
  destruct (N.leb 97 c && N.leb c 122)%bool eqn:E; [|reflexivity].
  apply andb_true_iff in E. destruct E as (E1 & E2).
  apply N.leb_le in E1, E2.
  assert (W : forall x, (65 <= x <= 122)%N -> isWhiteSpace x = false).
  { intros x Hx. unfold isWhiteSpace.
    repeat match goal with
      | |- context [N.eqb x ?k] =>
          replace (N.eqb x k) with false
            by (symmetry; apply N.eqb_neq; lia)
      end.
    replace (N.leb 8192 x) with false by (symmetry; apply N.leb_gt; lia).
    reflexivity. }
  rewrite !W by lia. reflexivity.
Qed.

Lemma chr_matches_canonicalize (p x : N) :
  chr_matches p (canonicalize x) = chr_matches p x.
Proof. unfold chr_matches. rewrite canonicalize_idem. reflexivity. Qed.

Lemma matches_here_canonicalize (p : list atom) (s : jsstring) :
  matches_here p (map canonicalize s) = matches_here p s.
Proof.
  revert s. induction p as [|[c|] p IH]; intros s.
  - reflexivity.
  - destruct s as [|x s]; [reflexivity|]. cbn [map matches_here].
    rewrite chr_matches_canonicalize, IH. reflexivity.
  - induction s as [|x s IHs].
    + reflexivity.
    + change (matches_here (WsStar :: p) (map canonicalize (x :: s)))
        with (matches_here p (map canonicalize (x :: s))
              || (isWhiteSpace (canonicalize x)
                  && matches_here (WsStar :: p) (map canonicalize s)))%bool.
      change (matches_here (WsStar :: p) (x :: s))
        with (matches_here p (x :: s)
              || (isWhiteSpace x && matches_here (WsStar :: p) s))%bool.
      rewrite IH, IHs, isWhiteSpace_canonicalize. reflexivity.
Qed.

Lemma alt_here_canonicalize (r : regexp) (s : jsstring) :
  alt_here r (map canonicalize s) = alt_here r s.
Proof.
  unfold alt_here. induction r as [|p r IHr]; [reflexivity|].
  cbn [existsb]. rewrite IHr, matches_here_canonicalize. reflexivity.
Qed.

Lemma test_canonicalize (r : regexp) (s : jsstring) :
  test r (map canonicalize s) = test r s.
Proof.
  induction s as [|x s IH].
  - reflexivity.
  - change (test r (map canonicalize (x :: s)))
      with (alt_here r (map canonicalize (x :: s))
            || test r (map canonicalize s))%bool.
    rewrite IH, alt_here_canonicalize. reflexivity.
Qed.

Lemma test_same_fold (r : regexp) (s s' : jsstring) :
  map canonicalize s = map canonicalize s' -> test r s = test r s'.
Proof.
  intros E. rewrite <- (test_canonicalize r s), E. apply test_canonicalize.
Qed.

(** X12: the suggestion engine does not see the case of ASCII letters: two
    roles, and two summaries, that differ only by the case of the letters
    a to z get the same suggestions. *)
Theorem getSuggestedBullets_ignores_case (role1 role2 summary1 summary2 : jsstring) :
  map canonicalize role1 = map canonicalize role2 ->
  map canonicalize summary1 = map canonicalize summary2 ->
  getSuggestedBullets role1 summary1 = getSuggestedBullets role2 summary2.
Proof.
  intros Hr Hs. unfold getSuggestedBullets, libraryMatches. do 3 f_equal.
  apply filter_ext. intros entry. unfold entry_matches.
  rewrite (@test_same_fold _ _ _ Hr), (@test_same_fold _ _ _ Hs).
  reflexivity.
Qed.

Lemma getSuggestedBullets_ignores_case_witness :
  getSuggestedBullets (lit "UX Designer") (lit "Big Data")
  = getSuggestedBullets (lit "ux DESIGNER") (lit "BIG data").
Proof.
  apply getSuggestedBullets_ignores_case; vm_compute; reflexivity.
Defined.

Lemma matches_here_app (p : list atom) (s post : jsstring) :
  matches_here p s = true -> matches_here p (s ++ post) = true.
Proof.
  revert s. induction p as [|[c|] p IH]; intros s.
  - reflexivity.
  - destruct s as [|x s]; [discriminate|]. cbn [app matches_here].
    rewrite !andb_true_iff. intros (Hc & Hm). split; [exact Hc | apply IH, Hm].
  - induction s as [|x s IHs].
    + cbn [matches_here]. rewrite orb_false_r. intros Hm.
      apply (IH []) in Hm. cbn [app] in *.
      destruct post as [|y post]; cbn [matches_here];
        rewrite Hm; reflexivity.
    + change (matches_here (WsStar :: p) (x :: s))
        with (matches_here p (x :: s)
              || (isWhiteSpace x && matches_here (WsStar :: p) s))%bool.
      change (matches_here (WsStar :: p) ((x :: s) ++ post))
        with (matches_here p ((x :: s) ++ post)
              || (isWhiteSpace x
                  && matches_here (WsStar :: p) (s ++ post)))%bool.
      rewrite !orb_true_iff, !andb_true_iff.
      intros [Hm | (Hw & Hm)]; [left; apply IH, Hm | right].
      split; [exact Hw | apply IHs, Hm].
Qed.

Lemma test_app (r : regexp) (pre s post : jsstring) :
  test r s = true -> test r (pre ++ s ++ post) = true.
Proof.
  intros Hs. induction pre as [|x pre IH].
  - cbn [app]. induction s as [|y s IHs].
    + cbn [test] in Hs. rewrite orb_false_r in Hs.
      unfold alt_here in Hs. apply existsb_exists in Hs.
      destruct Hs as (p & Hp & Hm).
      apply (matches_here_app p [] post) in Hm. cbn [app] in *.
      assert (A : alt_here r post = true)
        by (apply existsb_exists; exists p; tauto).
      destruct post; cbn [test]; rewrite A; reflexivity.
    + cbn [test app] in *. apply orb_true_iff in Hs.
      apply orb_true_iff. destruct Hs as [Hs | Hs].
      * left. unfold alt_here in *. apply existsb_exists in Hs.
        destruct Hs as (p & Hp & Hm). apply existsb_exists. exists p.
        split; [exact Hp | apply (matches_here_app p (y :: s) post Hm)].
      * right. apply IHs, Hs.
  - cbn [app test]. rewrite IH. apply orb_true_r.
Qed.

(** X13: text typed before or after a role or a summary never removes a
    bullet from the result of the suggestion engine. *)
Theorem getSuggestedBullets_grows_with_text
  (role0 summary0 pre post pre' post' b : jsstring) :
  In b (getSuggestedBullets role0 summary0) ->
  In b (getSuggestedBullets (pre ++ role0 ++ post)
          (pre' ++ summary0 ++ post')).
Proof.
  unfold getSuggestedBullets, libraryMatches.
  rewrite !Set_of_In, !in_app_iff, !in_flat_map.
  intros [(entry & Hin & Hb) | Hg]; [left | right; exact Hg].
  exists entry. split; [|exact Hb].
  apply filter_In in Hin. destruct Hin as (Hin & Hm). apply filter_In.
  split; [exact Hin|]. unfold entry_matches in *.
  apply orb_true_iff in Hm. apply orb_true_iff.
  destruct Hm as [Hm | Hm]; [left | right]; apply test_app, Hm.
Qed.

Lemma getSuggestedBullets_grows_with_text_witness :
  In (nth 0 softwareBullets [])
    (getSuggestedBullets (lit "Senior " ++ lit "Engineer" ++ lit " II")
       ([] ++ [] ++ lit "I build things")).
Proof.
  apply getSuggestedBullets_grows_with_text. vm_compute. tauto.
Defined.

(** X14: the result of the suggestion engine does not depend on which of
    the two texts is passed as the role and which as the summary, and it
    never holds more than the fifteen bullets of the library. *)
Theorem getSuggestedBullets_symmetric (a b : jsstring) :
  getSuggestedBullets a b = getSuggestedBullets b a
  /\ length (getSuggestedBullets a b) <= 15.
Proof.
  split.
  - unfold getSuggestedBullets, libraryMatches. do 3 f_equal.
    apply filter_ext. intros entry. apply orb_comm.
  - change 15 with (length libraryBullets).
    apply NoDup_incl_length; [apply getSuggestedBullets_NoDup|].
    intros x. apply getSuggestedBullets_from_library.
Qed.

(** ** Three clicks to a satisfied experience item *)

Lemma run_clicks (n : nat) :
  forall (d : ResumeDocument) (i : nat) (exp : Experience),
    nth_error (experiences d) i = Some exp ->
    length (bullets exp) + n = 3 ->
    exists d' exp',
      run d (repeat (AcceptSuggestion i 0) n) = Some d'
      /\ nth_error (experiences d') i = Some exp'
      /\ length (bullets exp') = 3
      /\ exists added, bullets exp' = bullets exp ++ added.
Proof.
  induction n as [|n IH]; intros d i exp Hexp Hlen.
  - exists d, exp. cbn [repeat run]. rewrite Nat.add_0_r in Hlen.
    split; [reflexivity|]. split; [exact Hexp|]. split; [exact Hlen|].
    exists []. symmetry. apply app_nil_r.
  - destruct (some_suggestion_shown (personal d) exp) as (Hne & _); [lia|].
    destruct (slice0 4 (suggestions (personal d) exp)) as [|s rest] eqn:S;
      [congruence|].
    assert (Hstep : step d (AcceptSuggestion i 0)
                    = Some (with_experiences d
                              (handleExperienceChange (x_id exp)
                                 (bulletsUpdate (bullets exp ++ [s]))
                                 (experiences d)))).
    { cbn [step]. rewrite Hexp. cbn [on]. rewrite S. reflexivity. }
    set (d1 := with_experiences d _) in Hstep.
    assert (H1 : nth_error (experiences d1) i
                 = Some (mkExperience (x_id exp) (role exp) (company exp)
                           (x_location exp) (x_startDate exp) (x_endDate exp)
                           (bullets exp ++ [s]))).
    { unfold d1, handleExperienceChange. cbn [experiences with_experiences].
      apply (handleChange_target (H := Keyed_Experience)) with (r := exp);
        [exact Hexp | reflexivity]. }
    destruct (IH d1 i _ H1)
      as (d' & exp' & Hrun & Hnth & Hthree & added & Hpre).
    { cbn [bullets]. rewrite length_app. simpl. lia. }
    exists d', exp'. cbn [repeat run]. rewrite Hstep. cbn [on].
    split; [exact Hrun|]. split; [exact Hnth|]. split; [exact Hthree|].
    exists (s :: added). rewrite Hpre. cbn [bullets].
    rewrite <- app_assoc. reflexivity.
Qed.

(** X15: whatever the document, a role with fewer than three bullets gets
    to three by clicking its first offered suggestion as many times as
    bullets are missing: every one of these clicks finds a suggestion, the
    bullets already there stay in front, and the experience item of the
    checklist is satisfied at the end. *)
Theorem three_clicks_satisfy_experience (d : ResumeDocument) (i : nat)
  (exp : Experience) :
  nth_error (experiences d) i = Some exp ->
  length (bullets exp) <= 3 ->
  exists d' exp',
    run d (repeat (AcceptSuggestion i 0) (3 - length (bullets exp)))
    = Some d'
    /\ nth_error (experiences d') i = Some exp'
    /\ length (bullets exp') = 3
    /\ (exists added, bullets exp' = bullets exp ++ added)
    /\ item_satisfied (lit "experience") (checklist d') = Some true.
Proof.
  intros Hexp Hlen.
  destruct (run_clicks (3 - length (bullets exp)) d i Hexp)
    as (d' & exp' & Hrun & Hnth & Hthree & Hpre); [lia|].
  exists d', exp'. do 4 (split; [assumption|]).
  rewrite item_satisfied_experience. f_equal.
  apply (existsb_nth _ _ i Hnth). rewrite Hthree. reflexivity.
Qed.

Lemma three_clicks_satisfy_experience_witness :
  exists d',
    run (initialDocument (lit "r1") (lit "e1") (lit "p1") (lit "s1"))
      [AcceptSuggestion 0 0; AcceptSuggestion 0 0; AcceptSuggestion 0 0]
    = Some d'
    /\ item_satisfied (lit "experience") (checklist d') = Some true.
Proof.
  destruct (@three_clicks_satisfy_experience
              (initialDocument (lit "r1") (lit "e1") (lit "p1") (lit "s1"))
              0 (createExperience (lit "r1")) eq_refl)
    as (d' & exp' & Hrun & _ & _ & _ & Hsat).
  - simpl. lia.
  - exists d'. split; [exact Hrun | exact Hsat].
Defined.

(** ** Project highlights *)

Lemma highlightsOfText_bulletsOfText (value : jsstring) :
  highlightsOfText value = bulletsOfText value.
Proof.
  unfold highlightsOfText, bulletsOfText. apply filter_ext.
  intros [|c line]; reflexivity.
Qed.

Lemma handleProjectChange_keeps (P : jsstring -> Prop) (id : jsstring)
  (u : PartialProject) (prev : list Project) :
  match uj_highlights u with
  | Some hs => Forall P hs
  | None => True
  end ->
  Forall (fun project => Forall P (highlights project)) prev ->
  Forall (fun project => Forall P (highlights project))
    (handleProjectChange id u prev).
Proof.
  intros Hu Hprev. unfold handleProjectChange, handleChange.
  apply Forall_map. revert Hprev. apply Forall_impl. intros project Hp.
  destruct (streqb (ident project) id); [|assumption].
  simpl. destruct (uj_highlights u); assumption.
Qed.

Lemma step_keeps_highlights (P : jsstring -> Prop) (d d' : ResumeDocument)
  (ev : Event) :
  (forall value, Forall P (bulletsOfText value)) ->
  Forall (fun project => Forall P (highlights project)) (projects d) ->
  step d ev = Some d' ->
  Forall (fun project => Forall P (highlights project)) (projects d').
Proof.
  intros HP Hd Hstep.
  destruct ev; cbn [step] in Hstep;
    repeat match type of Hstep with
      | on ?o _ = Some _ =>
          let E := fresh "E" in
          destruct o eqn:E; cbn [on] in Hstep; [|discriminate]
      | (if ?c then _ else _) = Some _ =>
          destruct c; [|discriminate]
      end;
    injection Hstep as <-;
    cbn [projects with_personal with_experiences with_educations
           with_projects with_skills];
    try assumption.
  - apply Forall_app. split; [assumption|]. repeat constructor.
  - apply handleProjectChange_keeps; [|assumption]. destruct f; exact I.
  - apply handleProjectChange_keeps; [|assumption]. simpl.
    rewrite highlightsOfText_bulletsOfText. apply HP.
  - unfold removeById. apply Forall_forall. intros project Hp.
    apply filter_In in Hp.
    exact (proj1 (Forall_forall _ _) Hd _ (proj1 Hp)).
Qed.

Lemma reachable_keeps_highlights (P : jsstring -> Prop) (d : ResumeDocument) :
  (forall value, Forall P (bulletsOfText value)) ->
  reachable d ->
  Forall (fun project => Forall P (highlights project)) (projects d).
Proof.
  intros HP. induction 1 as [i1 i2 i3 i4 | d d' ev _ IH Hstep].
  - repeat constructor.
  - eapply step_keeps_highlights; eassumption.
Qed.

(** X16: the highlights text area of a project parses its text exactly as
    the bullets text area of a role does; in every document the form can
    arrive at, each stored highlight is trimmed and not empty, and the text
    shown for the highlights of a project reads back as those
    highlights. *)
Theorem stored_highlights_tidy (d : ResumeDocument) :
  reachable d ->
  (forall value, highlightsOfText value = bulletsOfText value)
  /\ (forall project h, In project (projects d) ->
        In h (highlights project) -> trim h = h /\ h <> [])
  /\ (forall project, In project (projects d) ->
        highlightsOfText (textareaValue (highlights project))
        = highlights project).
Proof.
  intros Hd. split; [apply highlightsOfText_bulletsOfText|].
  pose proof (@reachable_keeps_highlights tidy d bulletsOfText_tidy Hd) as T.
  pose proof (@reachable_keeps_highlights no_line_feed d
                bulletsOfText_no_line_feed Hd) as F.
  split.
  - intros project h Hp Hh.
    exact (proj1 (Forall_forall _ _)
             (proj1 (Forall_forall _ _) T _ Hp) _ Hh).
  - intros project Hp. rewrite highlightsOfText_bulletsOfText.
    apply bulletsOfText_textareaValue.
    + exact (proj1 (Forall_forall _ _) T _ Hp).
    + exact (proj1 (Forall_forall _ _) F _ Hp).
Qed.

Lemma stored_highlights_tidy_witness :
  exists d,
    step (initialDocument (lit "r1") (lit "e1") (lit "p1") (lit "s1"))
      (EditHighlights 0 (lit " fast " ++ [10; 10]%N ++ lit "small"))
    = Some d
    /\ map highlights (projects d) = [[lit "fast"; lit "small"]]
    /\ (forall project, In project (projects d) ->
          highlightsOfText (textareaValue (highlights project))
          = highlights project).
Proof.
  exists (with_projects
            (initialDocument (lit "r1") (lit "e1") (lit "p1") (lit "s1"))
            [mkProject (lit "p1") [] [] [] [lit "fast"; lit "small"]]).
  split; [vm_compute; reflexivity|]. split; [reflexivity|].
  apply stored_highlights_tidy.
  apply (@reachable_step
           (initialDocument (lit "r1") (lit "e1") (lit "p1") (lit "s1")) _
           (EditHighlights 0 (lit " fast " ++ [10; 10]%N ++ lit "small"))).
  - apply reachable_initial.
  - vm_compute. reflexivity.
Defined.

Lemma textarea_shows_stored_bullets_witness :
  bulletsOfText (textareaValue [lit "Led a team"; lit "Shipped"])
  = [lit "Led a team"; lit "Shipped"].
Proof.
  apply (@textarea_shows_stored_bullets
           (with_experiences
              (initialDocument (lit "r1") (lit "e1") (lit "p1") (lit "s1"))
              [mkExperience (lit "r1") [] [] [] [] []
                 [lit "Led a team"; lit "Shipped"]]))
    with (exp := mkExperience (lit "r1") [] [] [] [] []
                   [lit "Led a team"; lit "Shipped"]).
  - apply (@reachable_step
             (initialDocument (lit "r1") (lit "e1") (lit "p1") (lit "s1")) _
             (EditBullets 0 (lit "Led a team" ++ [10]%N ++ lit "Shipped"))).
    + apply reachable_initial.
    + vm_compute. reflexivity.
  - left. reflexivity.
Defined.

(** ** Export and links *)

Lemma import_of_export (d : ResumeDocument) :
  on (exportAsJson true d)
     (fun file => import_text (JsonExport.content file))
  = Some d.
Proof.
  unfold exportAsJson. cbn [on JsonExport.content]. unfold import_text.
  rewrite JSONFacts.parse_stringify
    by apply JsonExportFacts.distinct_document.
  apply JsonExportFacts.to_of_document.
Qed.

(** X17: the export loses nothing: two documents whose exported files are
    equal are equal. *)
Theorem exportAsJson_injective (d1 d2 : ResumeDocument) :
  exportAsJson true d1 = exportAsJson true d2 -> d1 = d2.
Proof.
  intros E. pose proof (import_of_export d1) as I1.
  rewrite E, import_of_export in I1. congruence.
Qed.

Lemma exportAsJson_injective_witness :
  initialDocument (lit "r1") (lit "e1") (lit "p1") (lit "s1")
  = with_personal
      (initialDocument (lit "r1") (lit "e1") (lit "p1") (lit "s1"))
      basePersonalInfo.
Proof. apply exportAsJson_injective. reflexivity. Defined.

Lemma startsWith_app (p v : jsstring) : startsWith (p ++ v) p = true.
Proof.
  induction p as [|c p IH]; simpl; [reflexivity|].
  rewrite N.eqb_refl. exact IH.
Qed.

Lemma startsWith_prefix (v p q : jsstring) :
  startsWith v (p ++ q) = true -> startsWith v p = true.
Proof.
  revert v. induction p as [|c p IH]; intros v; [reflexivity|].
  destruct v as [|x v]; simpl; [discriminate|].
  rewrite !andb_true_iff. intros (Hx & Hv). split; [exact Hx | apply IH, Hv].
Qed.

(** X18: the [href] of a link always starts with [http]; a value that
    does not start with [http] is shown as typed and linked with
    [https://] put in front; and the text shown for a value is also the
    text shown for its [href]. *)
Theorem preview_links (value : jsstring) :
  startsWith (linkHref value) (lit "http") = true
  /\ (startsWith value (lit "http") = false ->
      linkHref value = lit "https://" ++ value /\ linkText value = value)
  /\ linkText (linkHref value) = linkText value
  /\ linkText (lit "https://" ++ value) = value
  /\ linkText (lit "http://" ++ value) = value.
Proof.
  assert (N : startsWith value (lit "http") = false ->
              startsWith value (lit "https://") = false
              /\ startsWith value (lit "http://") = false).
  { intros Hn. split.
    - destruct (startsWith value (lit "https://")) eqn:E; [|reflexivity].
      apply (startsWith_prefix value (lit "http") (lit "s://")) in E.
      congruence.
    - destruct (startsWith value (lit "http://")) eqn:E; [|reflexivity].
      apply (startsWith_prefix value (lit "http") (lit "://")) in E.
      congruence. }
  assert (S : linkText (lit "https://" ++ value) = value).
  { unfold linkText. rewrite startsWith_app. reflexivity. }
  split; [|split; [|split; [|split]]].
  - unfold linkHref. destruct (startsWith value (lit "http")) eqn:E.
    + exact E.
    + reflexivity.
  - intros Hn. unfold linkHref, linkText. rewrite Hn.
    destruct (N Hn) as (-> & ->). split; reflexivity.
  - unfold linkHref. destruct (startsWith value (lit "http")) eqn:E.
    + reflexivity.
    + rewrite S. unfold linkText. destruct (N eq_refl) as (-> & ->).
      reflexivity.
  - exact S.
  - unfold linkText.
    change (startsWith (lit "http://" ++ value) (lit "https://")) with false.
    rewrite startsWith_app. reflexivity.
Qed.

(** ** The exported text *)

Module JSONText.

Import JSON.
Local Open Scope N_scope.










End JSONText.

Example stringify_copies_DEL_and_C1 :
  JSON.stringify (JSON.Str [31; 127; 133]%N)
  = [34; 92]%N ++ lit "u001f" ++ [127; 133; 34]%N.
Proof. vm_compute. reflexivity. Qed.

